(** * gospf: SPF validation of a sender IP against a domain's DNS policy

    A shallow embedding of [spf.go] (package [spf]) and the properties of
    its [Validate] / [GetDomainFromEmail] entry points.

    Go strings are byte sequences, modelled here as [string] (a list of
    8-bit [ascii]).  Go's multiple return values [(v, err)] are modelled as
    pairs [(v, option error)], because the source sometimes uses the value
    part without looking at the error part.  The DNS resolver, the textual
    IPv6 parser, [mail.ParseAddress] and, in [GetDomainFromEmail], the
    Unicode-aware [strings.ToLower] and [strings.TrimSpace] belong to Go's
    standard library and are taken as parameters; the IPv4 side of package
    [net] is modelled concretely so that containment claims can be
    evaluated. *)

From Stdlib Require Import String Ascii List ZArith Lia Bool.
From stdpp Require Import gmap strings.
Import ListNotations.

Local Open Scope string_scope.
Local Open Scope list_scope.

(** ** Package [strings] (the functions the source calls) *)

(** [strings.HasPrefix(s, prefix)]. *)
Definition HasPrefix (s prefix : string) : bool := String.prefix prefix s.

(** [strings.Contains(s, substr)]. *)
Fixpoint Contains (s substr : string) : bool :=
  String.prefix substr s ||
  match s with
  | EmptyString => false
  | String _ s' => Contains s' substr
  end.

(** [strings.Split(s, sep)] for a one-byte separator, which is what every
    call site in the source passes ([" "], ["a"], ["@"]).  The result is
    never empty: splitting the empty string gives one empty field. *)
Fixpoint Split (s : string) (sep : ascii) : list string :=
  match s with
  | EmptyString => [EmptyString]
  | String c s' =>
      if Ascii.eqb c sep then EmptyString :: Split s' sep
      else match Split s' sep with
           | [] => [String c EmptyString]
           | w :: ws => String c w :: ws
           end
  end.

(** [strings.Replace(s, old, "", -1)]: every non-overlapping occurrence of
    [old], leftmost first, is deleted.  [skip] counts the bytes of the
    occurrence being deleted that are still ahead. *)
Fixpoint Replace_skip (old : string) (skip : nat) (s : string) : string :=
  match s with
  | EmptyString => EmptyString
  | String c s' =>
      match skip with
      | S k => Replace_skip old k s'
      | O =>
          if String.prefix old s
          then Replace_skip old (String.length old - 1) s'
          else String c (Replace_skip old 0 s')
      end
  end.

Definition Replace (s old : string) : string :=
  match old with
  | EmptyString => s
  | _ => Replace_skip old 0 s
  end.

(** Lower case, byte by byte: ASCII upper-case letters are mapped to lower
    case and every other byte is kept.  This is [strings.ToLower] on ASCII
    strings.  [getIPsForRecord] only compares the lower-cased token with
    ["a"] and ["mx"], and on that comparison the byte-wise map and Go's
    Unicode-aware [strings.ToLower] agree for every byte string: the runes
    that lower to [a], [m] or [x] are these letters and their ASCII
    capitals.  [GetDomainFromEmail] returns the lower-cased text and takes
    Go's function as a parameter instead. *)
Definition lower_byte (c : ascii) : ascii :=
  let n := nat_of_ascii c in
  if (65 <=? n)%nat && (n <=? 90)%nat then ascii_of_nat (n + 32) else c.

Fixpoint ToLower (s : string) : string :=
  match s with
  | EmptyString => EmptyString
  | String c s' => String (lower_byte c) (ToLower s')
  end.

(** ASCII white space: tab, line feed, vertical tab, form feed, carriage
    return and space.  The three functions below trim it; they are what
    [strings.TrimSpace] does on ASCII strings, and serve as an instance of
    that parameter of [GetDomainFromEmail] (Go's function also trims the
    white space of Unicode). *)
Definition isSpace (c : ascii) : bool :=
  let n := nat_of_ascii c in
  ((9 <=? n)%nat && (n <=? 13)%nat) || (n =? 32)%nat.

Fixpoint ascii_TrimLeft (s : string) : string :=
  match s with
  | EmptyString => EmptyString
  | String c s' => if isSpace c then ascii_TrimLeft s' else s
  end.

Fixpoint ascii_TrimRight (s : string) : string :=
  match s with
  | EmptyString => EmptyString
  | String c s' =>
      match ascii_TrimRight s' with
      | EmptyString => if isSpace c then EmptyString else String c EmptyString
      | r => String c r
      end
  end.

Definition ascii_TrimSpace (s : string) : string := ascii_TrimLeft (ascii_TrimRight s).

(** ** Errors *)

(** Go compares [err == ErrNoSPFRecords] by identity: the package-level
    sentinel is a constructor of its own, distinct from every value built by
    a fresh [errors.New] and from the errors of the standard library. *)
Inductive error : Type :=
| ErrNoSPFRecords
| errors_New (msg : string)
| DNSError (msg : string)
| ParseError (typ text : string)
| AddressError (msg : string).

(** The text of the sentinel, as declared in the [var] block. *)
Definition error_text (e : error) : string :=
  match e with
  | ErrNoSPFRecords => "No SPF Records found."
  | errors_New msg | DNSError msg | AddressError msg => msg
  | ParseError typ text => "invalid " +:+ typ +:+ ": " +:+ text
  end.

(** ** Package [net]: addresses, masks and CIDR blocks *)

(** [net.IP] and [net.IPMask] are byte slices of length 4 or 16; the empty
    list stands for [nil]. *)
Definition IP : Type := list Z.
Definition IPMask : Type := list Z.

Record IPNet : Type := { net_IP : IP; net_Mask : IPMask }.

Record MX : Type := { Host : string; Pref : Z }.

Definition v4InV6Prefix : list Z := [0; 0; 0; 0; 0; 0; 0; 0; 0; 0; 255; 255]%Z.

Definition list_Z_eqb (a b : list Z) : bool := bool_decide (a = b).

Definition allFF (m : list Z) : bool := forallb (Z.eqb 255) m.

(** [IP.To4]: the 4-byte form of an IPv4 address, [nil] otherwise. *)
Definition To4 (ip : IP) : IP :=
  if (length ip =? 4)%nat then ip
  else if (length ip =? 16)%nat && list_Z_eqb (take 12 ip) v4InV6Prefix
       then drop 12 ip
       else [].

(** [IP.Mask]. *)
Definition IP_Mask (ip : IP) (mask : IPMask) : IP :=
  let mask :=
    if (length mask =? 16)%nat && (length ip =? 4)%nat && allFF (take 12 mask)
    then drop 12 mask else mask in
  let ip :=
    if (length mask =? 4)%nat && (length ip =? 16)%nat
       && list_Z_eqb (take 12 ip) v4InV6Prefix
    then drop 12 ip else ip in
  if (length ip =? length mask)%nat
  then zip_with Z.land ip mask
  else [].

(** [net.CIDRMask(ones, bits)], byte by byte: [l] bytes remain to be
    written and [n] one-bits remain to be placed. *)
Fixpoint CIDRMask_bytes (l : nat) (n : Z) : IPMask :=
  match l with
  | O => []
  | S l' =>
      if (8 <=? n)%Z then 255%Z :: CIDRMask_bytes l' (n - 8)
      else Z.lxor 255 (Z.shiftr 255 n) :: CIDRMask_bytes l' 0
  end.

Definition CIDRMask (ones bits : Z) : IPMask :=
  CIDRMask_bytes (Z.to_nat (bits / 8)) ones.

(** [networkNumberAndMask]: the block's address in 4-byte form when it has
    one, with a mask of the same length; [(nil, nil)] for an ill-formed
    block. *)
Definition networkNumberAndMask (n : IPNet) : IP * IPMask :=
  let ip4 := To4 (net_IP n) in
  let ip := match ip4 with [] => net_IP n | _ => ip4 end in
  match ip4, (length ip =? 16)%nat with
  | [], false => ([], [])
  | _, _ =>
      let m := net_Mask n in
      if (length m =? 4)%nat then
        if (length ip =? 4)%nat then (ip, m) else ([], [])
      else if (length m =? 16)%nat then
        if (length ip =? 4)%nat then (ip, drop 12 m) else (ip, m)
      else ([], [])
  end.

(** [IPNet.Contains]: after bringing the candidate to 4-byte form when
    it has one, lengths must agree and every byte must agree under the
    mask.  A [nil] candidate (an unparsable IP string) is never contained
    in a well-formed block. *)
Definition IPNet_Contains (n : IPNet) (ip : IP) : bool :=
  let '(nn, m) := networkNumberAndMask n in
  let ip := match To4 ip with [] => ip | x => x end in
  (length ip =? length nn)%nat
  && forallb (fun p => (Z.land (fst (fst p)) (snd p) =? Z.land (snd (fst p)) (snd p))%Z)
             (zip (zip nn ip) m).

(** Decimal text. [dtoi] followed by the callers' "all of the text was
    consumed" test: [None] when the text is empty or has a non-digit.  Go
    caps the value at [0xFFFFFF]; every caller rejects values far below the
    cap, so the unbounded value decides the same way. *)
Definition isDigit (c : ascii) : bool :=
  let n := nat_of_ascii c in (48 <=? n)%nat && (n <=? 57)%nat.

Fixpoint digits_value (acc : Z) (s : string) : option Z :=
  match s with
  | EmptyString => Some acc
  | String c s' =>
      if isDigit c
      then digits_value (10 * acc + (Z.of_nat (nat_of_ascii c) - 48)) s'
      else None
  end.

Definition dtoi (s : string) : option Z :=
  match s with
  | EmptyString => None
  | _ => digits_value 0 s
  end.

(** One dotted-decimal field: digits only, at most 255, and no leading
    zero on a field of two or more digits. *)
Definition parseOctet (f : string) : option Z :=
  match dtoi f with
  | Some n =>
      if (255 <? n)%Z then None
      else match f with
           | String "0" (String _ _) => None
           | _ => Some n
           end
  | None => None
  end.

(** [parseIPv4]: exactly four fields separated by dots. *)
Definition parseIPv4 (s : string) : option IP :=
  match Split s "." with
  | [a; b; c; d] =>
      match parseOctet a, parseOctet b, parseOctet c, parseOctet d with
      | Some a, Some b, Some c, Some d => Some [a; b; c; d]
      | _, _, _, _ => None
      end
  | _ => None
  end.

(** The first ['.'] or [':'] of the text selects the address family. *)
Fixpoint firstSep (s : string) : option ascii :=
  match s with
  | EmptyString => None
  | String c s' =>
      if Ascii.eqb c "." || Ascii.eqb c ":" then Some c else firstSep s'
  end.

(** The parsed address with its family, as [netip.ParseAddr] gives it. *)
Inductive addr : Type :=
| Addr4 (ip : IP)
| Addr6 (ip : IP).

Section NetText.

(** The textual IPv6 parser of package [net] (16 bytes on success). *)
Variable parse6 : string -> option IP.

Definition parseAddr (s : string) : option addr :=
  match firstSep s with
  | Some "."%char => Addr4 <$> parseIPv4 s
  | Some _ => Addr6 <$> parse6 s
  | None => None
  end.

Definition As16 (a : addr) : IP :=
  match a with
  | Addr4 ip => v4InV6Prefix ++ ip
  | Addr6 ip => ip
  end.

Definition BitLen (a : addr) : Z :=
  match a with
  | Addr4 _ => 32
  | Addr6 _ => 128
  end.

(** [net.ParseIP]: the 16-byte form, or [nil]. *)
Definition ParseIP (s : string) : IP :=
  match parseAddr s with
  | Some a => As16 a
  | None => []
  end.

(** The text before and after the first ['/'], when there is one. *)
Fixpoint cutSlash (s : string) : option (string * string) :=
  match s with
  | EmptyString => None
  | String c s' =>
      if Ascii.eqb c "/" then Some (EmptyString, s')
      else match cutSlash s' with
           | Some (a, m) => Some (String c a, m)
           | None => None
           end
  end.

(** [net.ParseCIDR], the network part of its result. *)
Definition ParseCIDR (s : string) : IPNet + error :=
  let bad := inr (ParseError "CIDR address" s) in
  match cutSlash s with
  | None => bad
  | Some (a, mask) =>
      match parseAddr a, dtoi mask with
      | Some ipAddr, Some n =>
          if (BitLen ipAddr <? n)%Z then bad
          else
            let m := CIDRMask n (BitLen ipAddr) in
            inl {| net_IP := IP_Mask (As16 ipAddr) m; net_Mask := m |}
      | _, _ => bad
      end
  end.

End NetText.

(** ** The standard library as the program sees it *)

(** What package [net] answers: the three DNS lookups, the textual IPv6
    parser and [IP.String].  A lookup is a function of the queried name, so
    two lookups of one name agree (the DNS does not change between calls). *)
Record Net : Type := {
  LookupTXT : string -> list string * option error;
  LookupIP : string -> list IP * option error;
  LookupMX : string -> list MX * option error;
  parseIPv6 : string -> option IP;
  IP_String : IP -> string
}.

(** A DNS query issued by the program. *)
Inductive query : Type :=
| QueryTXT (name : string)
| QueryIP (name : string)
| QueryMX (name : string).

(** A run of the program either returns a value together with the DNS
    queries it issued, in order, or panics (index out of range), or is cut
    off because the recursion budget of the model is used up. *)
Inductive outcome (A : Type) : Type :=
| Done (a : A) (log : list query)
| Panic
| OutOfFuel.

Arguments Done {A} a log.
Arguments Panic {A}.
Arguments OutOfFuel {A}.

Definition ret {A : Type} (a : A) : outcome A := Done a [].

Definition bind {A B : Type} (m : outcome A) (k : A -> outcome B) : outcome B :=
  match m with
  | Done a log =>
      match k a with
      | Done b log' => Done b (log ++ log')
      | Panic => Panic
      | OutOfFuel => OutOfFuel
      end
  | Panic => Panic
  | OutOfFuel => OutOfFuel
  end.

Notation "'let*' x ':=' m 'in' k" := (bind m (fun x => k))
  (at level 10, x pattern, m at level 100, k at level 200).

(** [s[i]] on a slice: out of range panics. *)
Definition index {A : Type} (s : list A) (i : nat) : outcome A :=
  match s !! i with
  | Some x => ret x
  | None => Panic
  end.

(** The number of TXT queries in a log (a mock resolver's call counter). *)
Definition isTXT (q : query) : bool :=
  match q with
  | QueryTXT _ => true
  | _ => false
  end.

Definition TXT_lookups (log : list query) : nat := length (List.filter isTXT log).

(** [tell log m]: the run [m] after the queries [log] were issued. *)
Definition tell {A : Type} (log : list query) (m : outcome A) : outcome A :=
  bind (Done tt log) (fun _ => m).

(** ** Package [spf] *)

(** [spfChecker]: the cache maps a domain to its list of SPF records. *)
Record spfChecker : Type := { Cache : gmap string (list string) }.

(** [NewSPFChecker]. *)
Definition NewSPFChecker : spfChecker := {| Cache := ∅ |}.

(** [spfChecker.DumpCache]. *)
Definition DumpCache (sc : spfChecker) : spfChecker := {| Cache := ∅ |}.

(** [processEmail]. *)
Definition processEmail (email : string) : string * option error :=
  let splitEmail := Split email "@" in
  if negb (length splitEmail =? 2)%nat
  then (EmptyString,
        Some (errors_New "Email address either has not enough or too many @ symbols"))
  else (default EmptyString (splitEmail !! 1%nat), None).

(** [findSPFRecord]. *)
Definition findSPFRecord (txtRecords : list string) : list string * option error :=
  let spfRecords := List.filter (fun record => HasPrefix record "v=spf1") txtRecords in
  if (length spfRecords =? 0)%nat || (1 <? length spfRecords)%nat
  then ([], Some (errors_New "Too many SPF records found"))
  else (spfRecords, None).

(** The normalisation inside [Validate]'s loop (the variable
    [elementWithCidr]). *)
Definition elementWithCidr (element : string) : string :=
  if negb (Contains element "/") then
    if negb (Contains element ":") then element +:+ "/32"
    else element +:+ "/128"
  else element.

Section SPF.

Variable net : Net.

Definition net_LookupTXT (name : string) : outcome (list string * option error) :=
  Done (LookupTXT net name) [QueryTXT name].

Definition net_LookupIP (name : string) : outcome (list IP * option error) :=
  Done (LookupIP net name) [QueryIP name].

Definition net_LookupMX (name : string) : outcome (list MX * option error) :=
  Done (LookupMX net name) [QueryMX name].

(** [parseOtherRecord(domain, "a")]: the branch [record == "a"]. *)
Definition parseOtherRecord_a (domain : string) : outcome (list string * option error) :=
  let* (ip, err) := net_LookupIP domain in
  match err with
  | Some e => ret ([], Some e)
  | None => ret (map (IP_String net) ip, None)
  end.

(** The loop over the MX hosts in [parseOtherRecord]; each host is
    resolved by the recursive call [parseOtherRecord(element.Host, "a")]. *)
Fixpoint parseOtherRecord_mx (ip : list MX) (ipList : list string)
  : outcome (list string * option error) :=
  match ip with
  | [] => ret (ipList, None)
  | element :: rest =>
      let* (MXARecords, err) := parseOtherRecord_a (Host element) in
      match err with
      | Some e => ret ([], Some e)
      | None => parseOtherRecord_mx rest (ipList ++ MXARecords)
      end
  end.

(** [parseOtherRecord]. The comparison with ["a"] and ["mx"] is exact. *)
Definition parseOtherRecord (domain record : string)
  : outcome (list string * option error) :=
  if String.eqb record "a" then parseOtherRecord_a domain
  else if String.eqb record "mx" then
    let* (ip, err) := net_LookupMX domain in
    match err with
    | Some e => ret ([], Some e)
    | None => parseOtherRecord_mx ip []
    end
  else ret ([], Some (errors_New "Unknown Record for SPF")).

(** The second loop of [getIPsForRecord], over the tokens of the policy.
    [rec] is the recursive call.  In the [include] branch the error of the
    recursive call is assigned and never tested: its list is appended and
    the loop goes on. *)
Fixpoint getIPsForRecord_range
    (rec : string -> string -> outcome (list string * option error))
    (domain : string) (spfSections : list string) (cidrIPs : list string)
  : outcome (list string * option error) :=
  match spfSections with
  | [] => ret (cidrIPs, None)
  | element :: rest =>
      if HasPrefix "v=spf1" element then
        getIPsForRecord_range rec domain rest cidrIPs
      else if HasPrefix element "ip4" then
        let cidr := Replace element "ip4:" in
        getIPsForRecord_range rec domain rest (cidrIPs ++ [cidr])
      else if HasPrefix element "include" then
        let record := Replace element "include:" in
        let* (txtRecords, err) := net_LookupTXT record in
        match err with
        | Some e => ret ([], Some e)
        | None =>
            let '(spfRecordList, err) := findSPFRecord txtRecords in
            match err with
            | Some e => ret ([], Some e)
            | None =>
                let* spfRecord := index spfRecordList 0 in
                let* (recursiveList, _) := rec record spfRecord in
                getIPsForRecord_range rec domain rest (cidrIPs ++ recursiveList)
            end
        end
      else if String.eqb (ToLower element) "a" || String.eqb (ToLower element) "mx" then
        let* (otherRecord, err) := parseOtherRecord domain element in
        match err with
        | Some e => ret ([], Some e)
        | None => getIPsForRecord_range rec domain rest (cidrIPs ++ otherRecord)
        end
      else getIPsForRecord_range rec domain rest cidrIPs
  end.

(** [getIPsForRecord]. The source recursion has no bound (an [include]
    cycle never returns); [fuel] bounds the nesting of [include]s. *)
Fixpoint getIPsForRecord (fuel : nat) (domain record : string)
  : outcome (list string * option error) :=
  match fuel with
  | O => OutOfFuel
  | S fuel' =>
      let splitTextRecords := Split record " " in
      let spfSections := splitTextRecords in
      getIPsForRecord_range (getIPsForRecord fuel') domain spfSections []
  end.

(** [spfChecker.LookupSPFRecords]. *)
Definition LookupSPFRecords (sc : spfChecker) (domain : string)
  : outcome ((list string * option error) * spfChecker) :=
  match Cache sc !! domain with
  | None =>
      let* (txtRecords, err) := net_LookupTXT domain in
      match err with
      | Some e => ret (([], Some e), sc)
      | None =>
          if (length txtRecords =? 0)%nat then ret (([], Some ErrNoSPFRecords), sc)
          else
            let '(spfRs, err) := findSPFRecord txtRecords in
            match err with
            | Some e => ret (([], Some e), sc)
            | None =>
                if (length spfRs =? 0)%nat then ret (([], Some ErrNoSPFRecords), sc)
                else
                  let sc := {| Cache := <[domain := spfRs]> (Cache sc) |} in
                  ret ((default [] (Cache sc !! domain), None), sc)
            end
      end
  | Some _ => ret ((default [] (Cache sc !! domain), None), sc)
  end.

(** The [for ... range ips] loop of [Validate]. *)
Fixpoint Validate_range (ip : string) (ips : list string) : bool * option error :=
  match ips with
  | [] => (false, None)
  | element :: rest =>
      match ParseCIDR (parseIPv6 net) (elementWithCidr element) with
      | inr err => (false, Some err)
      | inl cidrnet =>
          let ipAddress := ParseIP (parseIPv6 net) ip in
          if IPNet_Contains cidrnet ipAddress then (true, None)
          else Validate_range ip rest
      end
  end.

(** [spfChecker.Validate]. *)
Definition Validate (fuel : nat) (sc : spfChecker) (ip domain : string)
  : outcome ((bool * option error) * spfChecker) :=
  let* ((spfRecordList, err), sc) := LookupSPFRecords sc domain in
  match err with
  | Some ErrNoSPFRecords => ret ((false, None), sc)
  | Some e => ret ((false, Some e), sc)
  | None =>
      let* spfRecord := index spfRecordList 0 in
      let splitSPFRecord := Split spfRecord " " in
      let* allRecord := index splitSPFRecord (length splitSPFRecord - 1) in
      let allRecordSplit := Split allRecord "a" in
      let* allRecord := index allRecordSplit 0 in
      let* (ips, err) := getIPsForRecord fuel domain spfRecord in
      match err with
      | Some e => ret ((false, Some e), sc)
      | None => ret (Validate_range ip ips, sc)
      end
  end.

(** [Validate] with the four statements on [allRecord] taken out. *)
Definition Validate_without_allRecord
    (fuel : nat) (sc : spfChecker) (ip domain : string)
  : outcome ((bool * option error) * spfChecker) :=
  let* ((spfRecordList, err), sc) := LookupSPFRecords sc domain in
  match err with
  | Some ErrNoSPFRecords => ret ((false, None), sc)
  | Some e => ret ((false, Some e), sc)
  | None =>
      let* spfRecord := index spfRecordList 0 in
      let* (ips, err) := getIPsForRecord fuel domain spfRecord in
      match err with
      | Some e => ret ((false, Some e), sc)
      | None => ret (Validate_range ip ips, sc)
      end
  end.

End SPF.

(** ** Package [net/mail] and the address helper *)

(** [mail.Address]. *)
Record mail_Address : Type := { Name : string; Address : string }.

Section Email.

(** [mail.ParseAddress]: the RFC 5322 mailbox parser of the standard
    library; an address it accepts is a syntactically valid mailbox. *)
Variable ParseAddress : string -> mail_Address + error.

(** [strings.ToLower] and [strings.TrimSpace] of the standard library,
    both aware of Unicode. *)
Variable strings_ToLower : string -> string.
Variable strings_TrimSpace : string -> string.

(** [GetDomainFromEmail]. *)
Definition GetDomainFromEmail (email : string) : string * option error :=
  match ParseAddress email with
  | inr err => (EmptyString, Some err)
  | inl parsed => processEmail (strings_ToLower (strings_TrimSpace (Address parsed)))
  end.

End Email.

(** ** Vocabulary of the statements *)

(** The test [findSPFRecord] applies to each TXT record. *)
Definition is_spf1 (record : string) : bool := HasPrefix record "v=spf1".

(** The number of occurrences of a byte in a string. *)
Fixpoint count_byte (c : ascii) (s : string) : nat :=
  match s with
  | EmptyString => 0
  | String c' s' => (if Ascii.eqb c' c then 1 else 0) + count_byte c s'
  end.

(** What [GetDomainFromEmail] needs of the two string functions, each
    true of Go's: they work rune by rune, [@] is a one-byte rune that is
    neither white space nor changed by lower-casing, and no other rune
    becomes [@].  A function that is transparent at [@] maps the two sides
    of an [@] separately. *)
Definition transparent_at (f : string -> string) : Prop :=
  forall user dom, f (user +:+ String "@" dom) = f user +:+ String "@" (f dom).

(** The function neither adds nor removes an [@]. *)
Definition keeps_at_count (f : string -> string) : Prop :=
  forall s, count_byte "@" (f s) = count_byte "@" s.

(** Trimming an address leaves the domain [dom] as it is (the domain does
    not end in white space). *)
Definition keeps_domain (trim : string -> string) (dom : string) : Prop :=
  forall user, exists user', trim (user +:+ String "@" dom) = user' +:+ String "@" dom.

(** The cache agrees with the DNS: every cached list is what
    [findSPFRecord] extracts from the TXT records of its domain.  This is
    the state a checker is in when it starts empty and is changed by
    [Validate] alone. *)
Definition cache_ok (net : Net) (sc : spfChecker) : Prop :=
  forall d rs, Cache sc !! d = Some rs ->
    exists txts, LookupTXT net d = (txts, None) /\ findSPFRecord txts = (rs, None).

(** The spec parses after normalisation and its block does not contain
    the candidate: the loop of [Validate] moves on to the next spec. *)
Definition passes_over (net : Net) (ip element : string) : Prop :=
  exists cidrnet,
    ParseCIDR (parseIPv6 net) (elementWithCidr element) = inl cidrnet
    /\ IPNet_Contains cidrnet (ParseIP (parseIPv6 net) ip) = false.

(** ** Fixtures: small DNS worlds on which the program is run *)

(** A resolver that knows the TXT records listed in [zone] and answers
    every other name with an empty record set. *)
Fixpoint zone_TXT (zone : list (string * list string)) (name : string)
  : list string * option error :=
  match zone with
  | [] => ([], None)
  | (d, txts) :: zone' => if String.eqb d name then (txts, None) else zone_TXT zone' name
  end.

Definition zone_net (zone : list (string * list string))
    (ips : string -> list IP * option error) : Net :=
  {| LookupTXT := zone_TXT zone;
     LookupIP := ips;
     LookupMX := fun _ => ([], None);
     parseIPv6 := fun _ => None;
     IP_String := fun _ => EmptyString |}.

Definition no_hosts : string -> list IP * option error := fun _ => ([], None).

Definition failing_hosts : string -> list IP * option error :=
  fun _ => ([], Some (DNSError "no such host")).

(** A policy with an [include], and the policy it includes. *)
Definition include_zone : list (string * list string) :=
  [("example.org", ["v=spf1 include:other.example"]);
   ("other.example", ["v=spf1 ip4:10.0.0.0/8"])].

Definition include_net : Net := zone_net include_zone no_hosts.

(** A policy whose [include] leads to a domain with an [a] mechanism, in a
    DNS where no host resolves. *)
Definition failing_include_zone : list (string * list string) :=
  [("example.org", ["v=spf1 include:b.example ip4:10.0.0.0/8"]);
   ("b.example", ["v=spf1 a"])].

Definition failing_include_net : Net := zone_net failing_include_zone failing_hosts.

(** A domain with two SPF records, one with TXT records but no SPF record,
    and (every other name) domains with no TXT record at all. *)
Definition policy_zone : list (string * list string) :=
  [("two.example", ["v=spf1 a"; "site-verification=1"; "v=spf1 mx"]);
   ("verify.example", ["site-verification=1"])].

Definition policy_net : Net := zone_net policy_zone no_hosts.

(** A mailbox whose local part is the quoted string [a@b], at
    [example.com]; [mail.ParseAddress] returns its address unquoted. *)
Definition quoted_local_email : string :=
  String (ascii_of_nat 34) "a@b" +:+ String (ascii_of_nat 34) "@example.com".

(** A stand-in for [mail.ParseAddress] on the addresses of the test file
    and on the mailbox with a quoted local part. *)
Definition test_ParseAddress (email : string) : mail_Address + error :=
  if String.eqb email "Cathal <cathalGarvey@garvey.me>"
  then inl {| Name := "Cathal"; Address := "cathalGarvey@garvey.me" |}
  else if String.eqb email "cathal@Garvey.Me"
  then inl {| Name := EmptyString; Address := "cathal@Garvey.Me" |}
  else if String.eqb email quoted_local_email
  then inl {| Name := EmptyString; Address := "a@b@example.com" |}
  else inr (AddressError "mail: missing '@' or angle-addr").

(** ** Vocabulary and fixtures of the further properties *)

(** Every cached list holds exactly one record, and it starts with
    [v=spf1]. *)
Definition cache_singletons (sc : spfChecker) : Prop :=
  forall d rs, Cache sc !! d = Some rs ->
    exists r, rs = [r] /\ HasPrefix r "v=spf1" = true.

(** The spec parses after normalisation and its block contains the
    candidate. *)
Definition accepts (net : Net) (ip element : string) : Prop :=
  exists cidrnet,
    ParseCIDR (parseIPv6 net) (elementWithCidr element) = inl cidrnet
    /\ IPNet_Contains cidrnet (ParseIP (parseIPv6 net) ip) = true.

(** A token on which the loop of [getIPsForRecord] issues no DNS query: it
    neither starts with [include] nor reads [a] or [mx] in lower case. *)
Definition is_static (element : string) : bool :=
  negb (HasPrefix element "include")
  && negb (String.eqb (ToLower element) "a" || String.eqb (ToLower element) "mx").

(** A token taken by the [ip4] branch of the loop. *)
Definition is_ip4 (element : string) : bool :=
  negb (HasPrefix "v=spf1" element) && HasPrefix element "ip4".

(** The specs of the [ip4] tokens, in order. *)
Definition ip4_specs (spfSections : list string) : list string :=
  map (fun element => Replace element "ip4:") (List.filter is_ip4 spfSections).

(** The addresses of one MX host, as text. *)
Definition host_addresses (net : Net) (m : MX) : list string :=
  map (IP_String net) (fst (LookupIP net (Host m))).

(** A run with the list [acc] already resolved, in terms of the run that
    starts from the empty list. *)
Definition onto (acc : list string) (m : outcome (list string * option error))
  : outcome (list string * option error) :=
  match m with
  | Done (l, None) log => Done (acc ++ l, None) log
  | other => other
  end.

(** A DNS where [example.org] has two mail hosts with one address each,
    and a third host that does not resolve. *)
Definition mx_net : Net :=
  {| LookupTXT := zone_TXT [("example.org", ["v=spf1 mx -all"])];
     LookupIP := fun name =>
       if String.eqb name "mx1.example.org" then ([[10; 0; 0; 1]%Z], None)
       else if String.eqb name "mx2.example.org" then ([[10; 0; 0; 2]%Z], None)
       else ([], Some (DNSError "no such host"));
     LookupMX := fun name =>
       if String.eqb name "example.org"
       then ([{| Host := "mx1.example.org"; Pref := 10 |};
              {| Host := "mx2.example.org"; Pref := 20 |}], None)
       else ([{| Host := "mx1.example.org"; Pref := 10 |};
              {| Host := "gone.example.org"; Pref := 20 |};
              {| Host := "mx2.example.org"; Pref := 30 |}], None);
     parseIPv6 := fun _ => None;
     IP_String := fun ip =>
       if list_Z_eqb ip [10; 0; 0; 1]%Z then "10.0.0.1"
       else if list_Z_eqb ip [10; 0; 0; 2]%Z then "10.0.0.2"
       else "?" |}.

(** * Properties *)

(** ** The models of [strings] and [net] on examples *)

Example Split_policy :
  Split "v=spf1 ip4:10.0.0.0/8  -all" " " = ["v=spf1"; "ip4:10.0.0.0/8"; EmptyString; "-all"].
Proof. reflexivity. Qed.

Example Split_empty : Split EmptyString "@" = [EmptyString].
Proof. reflexivity. Qed.

Example Replace_ip4 : Replace "ip4:93.95.224.70" "ip4:" = "93.95.224.70".
Proof. reflexivity. Qed.

Example Replace_twice : Replace "include:a.include:b" "include:" = "a.b".
Proof. reflexivity. Qed.

Example TrimSpace_both : ascii_TrimSpace "  a b@c  " = "a b@c".
Proof. reflexivity. Qed.

Example ToLower_mixed : ToLower "cathal@Garvey.Me" = "cathal@garvey.me".
Proof. reflexivity. Qed.

Example ParseCIDR_24 :
  ParseCIDR (fun _ => None) "93.95.224.70/24"
  = inl {| net_IP := [93; 95; 224; 0]%Z; net_Mask := [255; 255; 255; 0]%Z |}.
Proof. reflexivity. Qed.

Example ParseCIDR_9 :
  ParseCIDR (fun _ => None) "10.200.0.0/9"
  = inl {| net_IP := [10; 128; 0; 0]%Z; net_Mask := [255; 128; 0; 0]%Z |}.
Proof. reflexivity. Qed.

Example ParseCIDR_leading_zero :
  ParseCIDR (fun _ => None) "10.01.0.0/8" = inr (ParseError "CIDR address" "10.01.0.0/8").
Proof. reflexivity. Qed.

Example ParseCIDR_bits :
  ParseCIDR (fun _ => None) "10.0.0.0/33" = inr (ParseError "CIDR address" "10.0.0.0/33").
Proof. reflexivity. Qed.

Example Contains_in :
  match ParseCIDR (fun _ => None) "93.95.224.0/24" with
  | inl n => IPNet_Contains n (ParseIP (fun _ => None) "93.95.224.70")
  | inr _ => false
  end = true.
Proof. reflexivity. Qed.

Example Contains_nil_ip :
  match ParseCIDR (fun _ => None) "0.0.0.0/0" with
  | inl n => IPNet_Contains n (ParseIP (fun _ => None) "not an ip")
  | inr _ => true
  end = false.
Proof. reflexivity. Qed.

(** ** The writer of DNS queries *)

Lemma bind_ret_l {A B : Type} (a : A) (k : A -> outcome B) : bind (ret a) k = k a.
Proof. unfold bind, ret. destruct (k a); reflexivity. Qed.

Lemma bind_ext {A B : Type} (m : outcome A) (k k' : A -> outcome B) :
  (forall a, k a = k' a) -> bind m k = bind m k'.
Proof. intros E. destruct m as [a log| |]; simpl; [rewrite E|..]; reflexivity. Qed.

Lemma bind_Done_inv {A B : Type} (m : outcome A) (k : A -> outcome B) b log :
  bind m k = Done b log ->
  exists a l1 l2, m = Done a l1 /\ k a = Done b l2 /\ log = l1 ++ l2.
Proof.
  destruct m as [a l1| |]; simpl; try discriminate.
  destruct (k a) as [b' l2| |] eqn:K; try discriminate.
  intros [= <- <-]. eauto 6.
Qed.

(** Step through one [let*] of a run that returned. *)
Ltac bind_inv H := apply bind_Done_inv in H as (? & ? & ? & _ & H & _).

Lemma bind_Done {A B : Type} (a : A) (log : list query) (k : A -> outcome B) :
  bind (Done a log) k = tell log (k a).
Proof. reflexivity. Qed.

Lemma tell_nil {A : Type} (m : outcome A) : tell [] m = m.
Proof. destruct m; reflexivity. Qed.

Lemma tell_Done {A : Type} (l1 l2 : list query) (a : A) :
  tell l1 (Done a l2) = Done a (l1 ++ l2).
Proof. reflexivity. Qed.


Lemma tell_bind {A B : Type} (l : list query) (m : outcome A) (k : A -> outcome B) :
  bind (tell l m) k = tell l (bind m k).
Proof.
  destruct m as [a l'| |]; unfold tell; simpl; try reflexivity.
  destruct (k a); simpl; rewrite ?List.app_assoc; reflexivity.
Qed.

Lemma tell_Done_inv {A : Type} (l : list query) (m : outcome A) (a : A) (log : list query) :
  tell l m = Done a log -> exists l', m = Done a l' /\ log = l ++ l'.
Proof.
  destruct m as [a' l'| |]; unfold tell; simpl; try discriminate.
  intros [= <- <-]. eauto.
Qed.

(** ** Facts about [Split] and indexing *)

Lemma Split_nonempty (s : string) (sep : ascii) :
  exists w ws, Split s sep = w :: ws.
Proof.
  induction s as [|c s IH]; simpl; [eauto|].
  destruct (Ascii.eqb c sep); [eauto|].
  destruct IH as (w & ws & ->). eauto.
Qed.

Lemma index_last_Done {A : Type} (x : A) (l : list A) :
  exists y, index (x :: l) (length (x :: l) - 1) = Done y [].
Proof.
  unfold index.
  destruct ((x :: l) !! (length (x :: l) - 1)) as [y|] eqn:E; [eauto|].
  apply lookup_ge_None in E. simpl in E. lia.
Qed.

Lemma index_0_cons {A : Type} (x : A) (l : list A) : index (x :: l) 0 = Done x [].
Proof. reflexivity. Qed.

(** The statements on [allRecord] always run to completion and issue no
    query: they can be dropped from any continuation that ignores them. *)
Lemma allRecord_statements {B : Type} (spfRecord : string) (k : outcome B) :
  (let* allRecord := index (Split spfRecord " ") (length (Split spfRecord " ") - 1) in
   let* _ := index (Split allRecord "a") 0 in k) = k.
Proof.
  destruct (Split_nonempty spfRecord " ") as (w & ws & ->).
  destruct (index_last_Done w ws) as (y & ->).
  rewrite bind_Done, tell_nil.
  destruct (Split_nonempty y "a") as (w' & ws' & ->).
  rewrite index_0_cons, bind_Done, tell_nil. reflexivity.
Qed.

(** ** [Validate] and its dead statements *)

(** C9. The statements of [Validate] that split the last token of the
    policy on the letter [a] and keep the part before it do not change what
    [Validate] does: the function with these statements removed returns the
    same pair, leaves the same cache and issues the same queries, on every
    input (and panics or fails to return on the same inputs). *)
Theorem Validate_allRecord_dead (net : Net) (fuel : nat) (sc : spfChecker)
    (ip domain : string) :
  Validate net fuel sc ip domain = Validate_without_allRecord net fuel sc ip domain.
Proof.
  unfold Validate, Validate_without_allRecord.
  apply bind_ext. intros [[spfRecordList err] sc'].
  destruct err as [e|]; [reflexivity|].
  apply bind_ext. intros spfRecord.
  apply (allRecord_statements spfRecord).
Qed.

(** ** The SPF record of a domain *)

(** [findSPFRecord] succeeds exactly when one record starts with [v=spf1],
    and then returns that record alone. *)
Lemma findSPFRecord_ok (txtRecords spfRs : list string) :
  findSPFRecord txtRecords = (spfRs, None) ->
  exists r, spfRs = [r] /\ List.filter is_spf1 txtRecords = [r].
Proof.
  unfold findSPFRecord. fold is_spf1.
  destruct (List.filter is_spf1 txtRecords) as [|r [|r' l]]; simpl; try discriminate.
  intros [= <-]. eauto.
Qed.

Lemma findSPFRecord_one (txtRecords : list string) (r : string) :
  List.filter is_spf1 txtRecords = [r] -> findSPFRecord txtRecords = ([r], None).
Proof. unfold findSPFRecord. fold is_spf1. intros ->. reflexivity. Qed.

Lemma findSPFRecord_not_one (txtRecords : list string) :
  length (List.filter is_spf1 txtRecords) <> 1 ->
  findSPFRecord txtRecords = ([], Some (errors_New "Too many SPF records found")).
Proof.
  unfold findSPFRecord. fold is_spf1.
  destruct (List.filter is_spf1 txtRecords) as [|r [|r' l]]; simpl; congruence.
Qed.

Section Lookup.

Variable net : Net.

(** What [LookupSPFRecords] does, case by case. *)
Lemma LookupSPFRecords_hit sc domain rs :
  Cache sc !! domain = Some rs ->
  LookupSPFRecords net sc domain = Done ((rs, None), sc) [].
Proof. unfold LookupSPFRecords. intros ->. reflexivity. Qed.

Lemma LookupSPFRecords_miss sc domain :
  Cache sc !! domain = None ->
  LookupSPFRecords net sc domain =
    let '(txtRecords, err) := LookupTXT net domain in
    match err, txtRecords with
    | Some e, _ => Done (([], Some e), sc) [QueryTXT domain]
    | None, [] => Done (([], Some ErrNoSPFRecords), sc) [QueryTXT domain]
    | None, _ =>
        let '(spfRs, err) := findSPFRecord txtRecords in
        match err with
        | Some e => Done (([], Some e), sc) [QueryTXT domain]
        | None =>
            Done ((spfRs, None), {| Cache := <[domain := spfRs]> (Cache sc) |})
                 [QueryTXT domain]
        end
    end.
Proof.
  unfold LookupSPFRecords, net_LookupTXT. intros ->.
  rewrite bind_Done.
  destruct (LookupTXT net domain) as [txts [e|]]; [reflexivity|].
  destruct txts as [|t txts]; [reflexivity|].
  change (length (t :: txts) =? 0)%nat with false. cbv iota.
  destruct (findSPFRecord (t :: txts)) as [spfRs [e|]] eqn:F; [reflexivity|].
  destruct (findSPFRecord_ok _ _ F) as (r & -> & _).
  simpl. rewrite lookup_insert_eq. reflexivity.
Qed.

(** [LookupSPFRecords] always returns; an error leaves the checker as it
    was, a success leaves the returned list cached under the domain. *)
Lemma LookupSPFRecords_Done sc domain :
  exists l err sc' log,
    LookupSPFRecords net sc domain = Done ((l, err), sc') log
    /\ match err with
       | Some _ => sc' = sc /\ Cache sc !! domain = None /\ log = [QueryTXT domain]
       | None => Cache sc' !! domain = Some l
                 /\ (log = [] /\ sc' = sc /\ Cache sc !! domain = Some l
                     \/ log = [QueryTXT domain] /\ Cache sc !! domain = None)
       end.
Proof.
  destruct (Cache sc !! domain) as [rs|] eqn:C.
  - rewrite (LookupSPFRecords_hit _ _ _ C). exists rs, None, sc, []. auto 6.
  - rewrite (LookupSPFRecords_miss _ _ C).
    destruct (LookupTXT net domain) as [txts [e|]].
    { do 4 eexists; split; [reflexivity|simpl; auto]. }
    destruct txts as [|t txts].
    { do 4 eexists; split; [reflexivity|simpl; auto]. }
    destruct (findSPFRecord (t :: txts)) as [spfRs [e|]].
    { do 4 eexists; split; [reflexivity|simpl; auto]. }
    do 4 eexists. split; [reflexivity|]. simpl. rewrite lookup_insert_eq. auto.
Qed.

(** The membership loop reports an error only together with [false]. *)
Lemma Validate_range_error ip ips b e :
  Validate_range net ip ips = (b, Some e) -> b = false.
Proof.
  induction ips as [|element rest IH]; simpl; [discriminate|].
  destruct (ParseCIDR _ _) as [cidrnet|err]; [|congruence].
  destruct (IPNet_Contains _ _); [discriminate|exact IH].
Qed.

End Lookup.

(** C10. Whenever [Validate] returns a non-nil error, the boolean it
    returns with it is [false]: [(true, err)] with [err] non-nil is never
    returned. *)
Theorem Validate_error_false (net : Net) (fuel : nat) (sc sc' : spfChecker)
    (ip domain : string) (b : bool) (e : error) (log : list query) :
  Validate net fuel sc ip domain = Done ((b, Some e), sc') log -> b = false.
Proof.
  unfold Validate. intros H.
  apply bind_Done_inv in H as ([[l err] sc1] & l1 & l2 & _ & H & _).
  destruct err as [e1|].
  - destruct e1; inversion H; reflexivity.
  - do 3 bind_inv H.
    apply bind_Done_inv in H as ([ips err] & ? & ? & _ & H & _).
    destruct err as [e2|]; [inversion H; reflexivity|].
    destruct (Validate_range net ip ips) as [b' o] eqn:V.
    inversion H; subst. eapply Validate_range_error; eauto.
Qed.

(** ** The cache *)

Lemma cache_ok_New (net : Net) : cache_ok net NewSPFChecker.
Proof. intros d rs H. simpl in H. rewrite lookup_empty in H. discriminate. Qed.

Lemma cache_ok_DumpCache (net : Net) (sc : spfChecker) : cache_ok net (DumpCache sc).
Proof. apply cache_ok_New. Qed.

Lemma cache_ok_LookupSPFRecords net sc domain x sc' log :
  cache_ok net sc ->
  LookupSPFRecords net sc domain = Done (x, sc') log ->
  cache_ok net sc'.
Proof.
  intros OK H.
  destruct (Cache sc !! domain) as [rs|] eqn:C.
  - rewrite (LookupSPFRecords_hit _ _ _ _ C) in H. inversion H; subst; exact OK.
  - rewrite (LookupSPFRecords_miss _ _ _ C) in H.
    destruct (LookupTXT net domain) as [txts [e|]] eqn:L;
      [inversion H; subst; exact OK|].
    destruct txts as [|t txts]; [inversion H; subst; exact OK|].
    destruct (findSPFRecord (t :: txts)) as [spfRs [e|]] eqn:F;
      [inversion H; subst; exact OK|].
    injection H as <- <- <-.
    intros d rs. simpl. rewrite lookup_insert.
    case_decide as E; [|apply OK].
    intros [= <-]. subst d. eauto.
Qed.

(** [Validate] returns the checker that [LookupSPFRecords] left. *)
Lemma Validate_inv net fuel sc ip domain r sc1 log1 :
  Validate net fuel sc ip domain = Done (r, sc1) log1 ->
  exists l err log log',
    LookupSPFRecords net sc domain = Done ((l, err), sc1) log
    /\ log1 = log ++ log'
    /\ forall sc0 log0,
        LookupSPFRecords net sc0 domain = Done ((l, err), sc1) log0 ->
        Validate net fuel sc0 ip domain = Done (r, sc1) (log0 ++ log').
Proof.
  unfold Validate. intros H.
  apply bind_Done_inv in H as ([[l err] sc'] & log & log' & L & H & ->).
  assert (sc' = sc1) as ->.
  { destruct err as [e|].
    - destruct e; inversion H; reflexivity.
    - do 3 bind_inv H.
      apply bind_Done_inv in H as ([ips err] & ? & ? & _ & H & _).
      destruct err; inversion H; reflexivity. }
  exists l, err, log, log'. repeat split; [exact L|].
  intros sc0 log0 ->. simpl. rewrite H. reflexivity.
Qed.

Lemma cache_ok_Validate net fuel sc ip domain r sc' log :
  cache_ok net sc ->
  Validate net fuel sc ip domain = Done (r, sc') log ->
  cache_ok net sc'.
Proof.
  intros OK H. apply Validate_inv in H as (l & err & ? & ? & L & _).
  eapply cache_ok_LookupSPFRecords; eauto.
Qed.

(** C4. When the TXT records of the domain hold two or more strings that
    start with [v=spf1], [Validate] returns [false] with a non-nil error
    (the message of [findSPFRecord]); nothing is cached and no record is
    used, so the records are not merged. *)
Theorem Validate_ambiguous_policy (net : Net) (fuel : nat) (sc : spfChecker)
    (ip domain : string) (txtRecords : list string) :
  cache_ok net sc ->
  LookupTXT net domain = (txtRecords, None) ->
  2 <= length (List.filter (fun record => HasPrefix record "v=spf1") txtRecords) ->
  Validate net fuel sc ip domain
  = Done ((false, Some (errors_New "Too many SPF records found")), sc) [QueryTXT domain].
Proof.
  intros OK L Two. fold is_spf1 in Two.
  assert (F : findSPFRecord txtRecords
              = ([], Some (errors_New "Too many SPF records found"))).
  { apply findSPFRecord_not_one. lia. }
  assert (C : Cache sc !! domain = None).
  { destruct (Cache sc !! domain) as [rs|] eqn:C; [|reflexivity].
    destruct (OK _ _ C) as (txts & L' & F'). congruence. }
  unfold Validate. rewrite (LookupSPFRecords_miss _ _ _ C), L, F.
  destruct txtRecords as [|t txts]; [simpl in Two; lia|]. reflexivity.
Qed.

(** A miss on a domain with exactly one SPF record caches that record. *)
Lemma LookupSPFRecords_one (net : Net) sc domain txts r0 :
  Cache sc !! domain = None ->
  LookupTXT net domain = (txts, None) ->
  List.filter is_spf1 txts = [r0] ->
  LookupSPFRecords net sc domain
  = Done (([r0], None), {| Cache := <[domain := [r0]]> (Cache sc) |}) [QueryTXT domain].
Proof.
  intros C L F. rewrite (LookupSPFRecords_miss _ _ _ C), L.
  destruct txts as [|t txts]; [discriminate F|].
  rewrite (findSPFRecord_one _ _ F). reflexivity.
Qed.

(** What a [Validate] call that finds the domain cached issues: the
    queries of resolving the cached record. *)
Lemma Validate_hit_queries (net : Net) fuel sc ip domain rs r sc' log :
  Cache sc !! domain = Some rs ->
  Validate net fuel sc ip domain = Done (r, sc') log ->
  exists r0 rest x,
    rs = r0 :: rest /\ getIPsForRecord net fuel domain r0 = Done x log.
Proof.
  intros C H. unfold Validate in H.
  rewrite (LookupSPFRecords_hit _ _ _ _ C), bind_Done, tell_nil in H.
  destruct rs as [|r0 rest]; [discriminate H|].
  rewrite index_0_cons, bind_Done, tell_nil in H.
  cbv zeta in H. rewrite allRecord_statements in H.
  apply bind_Done_inv in H as ([ips e] & l3 & l4 & G & H & ->).
  assert (l4 = []) as -> by (destruct e; inversion H; reflexivity).
  rewrite app_nil_r. eauto.
Qed.

(** C3, as the code has it. Two [Validate] calls in a row with the same IP
    and domain return the same pair and leave the same cache.  After a
    first call that found the domain uncached and with exactly one [v=spf1]
    record, that record is cached and the cache is hit: the second call
    issues the queries of the first except the TXT query for the domain
    itself.  Whenever the domain is cached after the first call, the
    queries of the second call are those of resolving the cached record:
    the queries of the mechanisms, the TXT queries of [include]s among them,
    are issued again.  When the first call cached nothing, the second
    repeats its queries. *)
Theorem Validate_twice (net : Net) (fuel : nat) (sc sc1 : spfChecker)
    (ip domain : string) (r : bool * option error) (log1 : list query) :
  Validate net fuel sc ip domain = Done (r, sc1) log1 ->
  exists log2,
    Validate net fuel sc1 ip domain = Done (r, sc1) log2
    /\ (forall txts r0,
          Cache sc !! domain = None ->
          LookupTXT net domain = (txts, None) ->
          List.filter (fun record => HasPrefix record "v=spf1") txts = [r0] ->
          Cache sc1 !! domain = Some [r0] /\ log1 = QueryTXT domain :: log2)
    /\ (forall rs,
          Cache sc1 !! domain = Some rs ->
          exists r0 rest x,
            rs = r0 :: rest /\ getIPsForRecord net fuel domain r0 = Done x log2)
    /\ (is_Some (Cache sc1 !! domain) ->
        log1 = match Cache sc !! domain with
               | Some _ => []
               | None => [QueryTXT domain]
               end ++ log2)
    /\ (Cache sc1 !! domain = None -> log2 = log1).
Proof.
  intros H. apply Validate_inv in H as (l & err & log & log' & L & -> & Again).
  destruct (LookupSPFRecords_Done net sc domain) as (l0 & err0 & sc0 & log0 & L0 & Cases).
  rewrite L in L0. injection L0 as <- <- <- <-.
  destruct err as [e|].
  - destruct Cases as (-> & C & ->).
    exists ([QueryTXT domain] ++ log'). split; [apply Again, L|].
    split.
    { intros txts r0 _ Lk F. rewrite (LookupSPFRecords_one _ _ _ _ _ C Lk F) in L.
      discriminate L. }
    split; [intros rs Hrs; congruence|].
    split; [intros [x Hx]; congruence|reflexivity].
  - destruct Cases as (C1 & Cases).
    assert (V2 : Validate net fuel sc1 ip domain = Done (r, sc1) log').
    { apply (Again sc1 []). apply LookupSPFRecords_hit, C1. }
    exists log'. split; [exact V2|].
    split.
    { intros txts r0 C Lk F. rewrite (LookupSPFRecords_one _ _ _ _ _ C Lk F) in L.
      injection L as <- <- <-. simpl. rewrite lookup_insert_eq. auto. }
    split.
    { intros rs Hrs. eapply Validate_hit_queries; eauto. }
    split; [|congruence]. intros _.
    destruct Cases as [(-> & -> & ->)|(-> & ->)]; reflexivity.
Qed.

(** C3 as stated does not hold: the second call is not free of TXT
    queries.  For a policy with an [include], the second call looks the
    included domain up again. *)
Lemma Validate_twice_repeats_include_lookup :
  ~ (forall (net : Net) (fuel : nat) (sc sc1 sc2 : spfChecker) (ip domain : string)
            (r r2 : bool * option error) (log1 log2 : list query),
        Validate net fuel sc ip domain = Done (r, sc1) log1 ->
        Validate net fuel sc1 ip domain = Done (r2, sc2) log2 ->
        r2 = r /\ TXT_lookups log2 = 0).
Proof.
  intros H.
  pose (sc1 := {| Cache := <["example.org" := ["v=spf1 include:other.example"]]> ∅ |}).
  destruct (H include_net 2 NewSPFChecker sc1 sc1
              "10.1.2.3" "example.org" (true, None) (true, None)
              [QueryTXT "example.org"; QueryTXT "other.example"]
              [QueryTXT "other.example"]) as [_ N].
  - vm_compute. reflexivity.
  - vm_compute. reflexivity.
  - discriminate N.
Qed.

(** ** The membership loop *)

Section Membership.

Variable net : Net.

Lemma Validate_range_app ip pre rest :
  Forall (passes_over net ip) pre ->
  Validate_range net ip (pre ++ rest) = Validate_range net ip rest.
Proof.
  induction 1 as [|x pre (n & P & C) _ IH]; [reflexivity|].
  simpl. rewrite P, C. exact IH.
Qed.

(** Once the record of the domain is known and its mechanisms resolve,
    [Validate] returns what the loop returns on the resolved specs. *)
Lemma Validate_resolved fuel sc sc' ip domain spfRecord rs ips log log' :
  LookupSPFRecords net sc domain = Done ((spfRecord :: rs, None), sc') log ->
  getIPsForRecord net fuel domain spfRecord = Done ((ips, None)) log' ->
  Validate net fuel sc ip domain
  = Done (Validate_range net ip ips, sc') (log ++ log').
Proof.
  intros L G. unfold Validate. rewrite L, bind_Done, index_0_cons, bind_Done, tell_nil.
  cbv zeta. rewrite allRecord_statements, G. simpl.
  rewrite app_nil_r. reflexivity.
Qed.

End Membership.

(** C5. The loop normalises and scans the specs in order.  If the first
    spec that is not passed over fails to parse as a CIDR block, the result
    is [false] with that parse error; if it parses and contains the
    candidate, the result is [true] with no error, whatever follows it; if
    every spec is passed over, the result is [false] with no error.  This
    is the pair [Validate] returns once the mechanisms have resolved. *)
Theorem Validate_range_first_decides (net : Net) (ip : string) :
  (forall pre element post err,
      Forall (passes_over net ip) pre ->
      ParseCIDR (parseIPv6 net) (elementWithCidr element) = inr err ->
      Validate_range net ip (pre ++ element :: post) = (false, Some err))
  /\ (forall pre element post cidrnet,
      Forall (passes_over net ip) pre ->
      ParseCIDR (parseIPv6 net) (elementWithCidr element) = inl cidrnet ->
      IPNet_Contains cidrnet (ParseIP (parseIPv6 net) ip) = true ->
      Validate_range net ip (pre ++ element :: post) = (true, None))
  /\ (forall ips,
      Forall (passes_over net ip) ips ->
      Validate_range net ip ips = (false, None))
  /\ (forall fuel sc sc' domain spfRecord rs ips log log',
      LookupSPFRecords net sc domain = Done ((spfRecord :: rs, None), sc') log ->
      getIPsForRecord net fuel domain spfRecord = Done ((ips, None)) log' ->
      Validate net fuel sc ip domain
      = Done (Validate_range net ip ips, sc') (log ++ log')).
Proof.
  repeat split.
  - intros pre element post err Pre P.
    rewrite Validate_range_app by exact Pre. simpl. rewrite P. reflexivity.
  - intros pre element post cidrnet Pre P C.
    rewrite Validate_range_app by exact Pre. simpl. rewrite P, C. reflexivity.
  - intros ips All. rewrite <- (app_nil_r ips).
    rewrite Validate_range_app by exact All. reflexivity.
  - intros. eapply Validate_resolved; eauto.
Qed.

(** ** Bare addresses *)

Lemma Contains_append_r (s1 s2 substr : string) :
  Contains s2 substr = true -> Contains (s1 +:+ s2) substr = true.
Proof.
  intros H. induction s1 as [|c s1 IH]; [exact H|].
  simpl. rewrite IH. apply orb_true_r.
Qed.

Lemma elementWithCidr_bare (spec : string) :
  Contains spec "/" = false ->
  elementWithCidr spec = spec +:+ (if Contains spec ":" then "/128" else "/32").
Proof. unfold elementWithCidr. intros ->. destruct (Contains spec ":"); reflexivity. Qed.

Lemma elementWithCidr_explicit (spec : string) :
  Contains spec "/" = true -> elementWithCidr spec = spec.
Proof. unfold elementWithCidr. intros ->. reflexivity. Qed.

Lemma elementWithCidr_idempotent (spec : string) :
  elementWithCidr (elementWithCidr spec) = elementWithCidr spec.
Proof.
  destruct (Contains spec "/") eqn:Sp.
  - rewrite (elementWithCidr_explicit _ Sp). apply elementWithCidr_explicit, Sp.
  - rewrite (elementWithCidr_bare _ Sp). apply elementWithCidr_explicit.
    apply Contains_append_r. destruct (Contains spec ":"); reflexivity.
Qed.

(** Containment in a 4-byte block, byte by byte. *)
Lemma IPNet_Contains_4 (a b c d m1 m2 m3 m4 : Z) (ip : IP) (x1 x2 x3 x4 : Z) :
  To4 ip = [x1; x2; x3; x4] ->
  IPNet_Contains {| net_IP := [a; b; c; d]; net_Mask := [m1; m2; m3; m4] |} ip
  = ((Z.land a m1 =? Z.land x1 m1)%Z && ((Z.land b m2 =? Z.land x2 m2)%Z
     && ((Z.land c m3 =? Z.land x3 m3)%Z && ((Z.land d m4 =? Z.land x4 m4)%Z && true)))).
Proof. unfold IPNet_Contains. intros ->. reflexivity. Qed.

Lemma land_255_byte (x : Z) : (0 <= x <= 255)%Z -> Z.land x 255 = x.
Proof.
  intros H. change 255%Z with (Z.ones 8). rewrite Z.land_ones by lia.
  apply Z.mod_small. change (2 ^ 8)%Z with 256%Z. lia.
Qed.

(** C6. A spec without [/] gets [/32] appended when it has no [:] and
    [/128] when it has one, and the loop treats it as the spec so
    completed.  The mechanism [ip4:93.95.224.70] resolves to the bare spec
    [93.95.224.70], which the loop treats as [93.95.224.70/32]: a candidate
    in [93.95.224.0/24] is accepted exactly when its last byte is 70. *)
Theorem bare_IP_normalization (net : Net) :
  (forall spec, Contains spec "/" = false ->
      elementWithCidr spec = spec +:+ (if Contains spec ":" then "/128" else "/32"))
  /\ (forall ip spec rest, Contains spec "/" = false ->
      Validate_range net ip (spec :: rest)
      = Validate_range net ip
          ((spec +:+ (if Contains spec ":" then "/128" else "/32")) :: rest))
  /\ (forall fuel domain,
      getIPsForRecord net (S fuel) domain "v=spf1 ip4:93.95.224.70"
      = Done (["93.95.224.70"], None) [])
  /\ (forall ip,
      Validate_range net ip ["93.95.224.70"] = Validate_range net ip ["93.95.224.70/32"])
  /\ (forall ip x,
      To4 (ParseIP (parseIPv6 net) ip) = [93; 95; 224; x]%Z ->
      (0 <= x <= 255)%Z ->
      Validate_range net ip ["93.95.224.70"] = (bool_decide (x = 70%Z), None)).
Proof.
  split; [exact elementWithCidr_bare|].
  split.
  { intros ip spec rest Sp. simpl.
    rewrite <- (elementWithCidr_bare _ Sp), elementWithCidr_idempotent. reflexivity. }
  split; [reflexivity|].
  split; [reflexivity|].
  intros ip x T Hx.
  change (Validate_range net ip ["93.95.224.70"])
    with (if IPNet_Contains {| net_IP := [93; 95; 224; 70]%Z;
                               net_Mask := [255; 255; 255; 255]%Z |}
               (ParseIP (parseIPv6 net) ip)
          then (true, @None error) else (false, None)).
  rewrite (IPNet_Contains_4 _ _ _ _ _ _ _ _ _ _ _ _ _ T).
  rewrite (land_255_byte x Hx).
  change (Z.land 93 255) with 93%Z. change (Z.land 95 255) with 95%Z.
  change (Z.land 224 255) with 224%Z. change (Z.land 70 255) with 70%Z.
  rewrite !Z.eqb_refl. cbn [andb]. rewrite andb_true_r.
  destruct (Z.eqb_spec 70 x) as [<-|N].
  - reflexivity.
  - rewrite bool_decide_eq_false_2 by congruence. reflexivity.
Qed.

(** ** Resolving [include] *)






(** A token that starts with [include] is neither skipped as the version
    tag nor taken for an [ip4] mechanism. *)
Lemma include_token (element : string) :
  HasPrefix element "include" = true ->
  HasPrefix "v=spf1" element = false /\ HasPrefix element "ip4" = false.
Proof.
  unfold HasPrefix.
  destruct element as [|c1 [|c2 s]]; cbn [String.prefix].
  - intros [=].
  - destruct (ascii_dec "i" c1); intros [=].
  - destruct (ascii_dec "i" c1) as [<-|]; [|intros [=]].
    destruct (ascii_dec "n" c2) as [<-|]; [|intros [=]].
    intros _. split; reflexivity.
Qed.

Section Include.

Variable net : Net.
Variable rec : string -> string -> outcome (list string * option error).



End Include.


(** ** Where the code departs from its test: no policy, swallowed errors *)

(** C1, as the code has it. For a domain with no [v=spf1] record
    [Validate] never returns [true]: with no TXT record at all it returns
    [false] with no error, and with TXT records of which none starts with
    [v=spf1] it returns [false] with the error of [findSPFRecord]. *)
Theorem Validate_no_policy (net : Net) (fuel : nat) (sc : spfChecker)
    (ip domain : string) (txtRecords : list string) :
  cache_ok net sc ->
  LookupTXT net domain = (txtRecords, None) ->
  List.filter (fun record => HasPrefix record "v=spf1") txtRecords = [] ->
  Validate net fuel sc ip domain
  = Done ((false,
           match txtRecords with
           | [] => None
           | _ => Some (errors_New "Too many SPF records found")
           end), sc) [QueryTXT domain].
Proof.
  intros OK L Zero. fold is_spf1 in Zero.
  assert (F : findSPFRecord txtRecords
              = ([], Some (errors_New "Too many SPF records found"))).
  { apply findSPFRecord_not_one. rewrite Zero. discriminate. }
  assert (C : Cache sc !! domain = None).
  { destruct (Cache sc !! domain) as [rs|] eqn:C; [|reflexivity].
    destruct (OK _ _ C) as (txts & L' & F'). congruence. }
  unfold Validate. rewrite (LookupSPFRecords_miss _ _ _ C), L.
  destruct txtRecords as [|t txts]; [reflexivity|]. rewrite F. reflexivity.
Qed.

(** C2, as the code has it. Resolving the included domain [b.example]
    fails with the DNS error of its [a] mechanism, and [Validate] on
    [b.example] itself returns that error.  Inside the [include] of
    [example.org] the same failure is dropped: resolution goes on with the
    next mechanism, no error is returned, and the candidate is accepted. *)
Theorem include_error_is_dropped :
  getIPsForRecord failing_include_net 1 "b.example" "v=spf1 a"
  = Done ([], Some (DNSError "no such host")) [QueryIP "b.example"]
  /\ Validate failing_include_net 2 NewSPFChecker "10.1.2.3" "b.example"
     = Done ((false, Some (DNSError "no such host")),
             {| Cache := <["b.example" := ["v=spf1 a"]]> ∅ |})
            [QueryTXT "b.example"; QueryIP "b.example"]
  /\ getIPsForRecord failing_include_net 2 "example.org"
       "v=spf1 include:b.example ip4:10.0.0.0/8"
     = Done (["10.0.0.0/8"], None) [QueryTXT "b.example"; QueryIP "b.example"]
  /\ Validate failing_include_net 2 NewSPFChecker "10.1.2.3" "example.org"
     = Done ((true, None),
             {| Cache := <["example.org" := ["v=spf1 include:b.example ip4:10.0.0.0/8"]]> ∅ |})
            [QueryTXT "example.org"; QueryTXT "b.example"; QueryIP "b.example"].
Proof. repeat split; vm_compute; reflexivity. Qed.

(** ** The address helper *)

Lemma Split_length (s : string) (sep : ascii) :
  length (Split s sep) = S (count_byte sep s).
Proof.
  induction s as [|c s IH]; simpl; [reflexivity|].
  destruct (Ascii.eqb c sep); simpl; [rewrite IH; reflexivity|].
  destruct (Split s sep); simpl in *; lia.
Qed.

Lemma Split_single (s : string) (sep : ascii) :
  count_byte sep s = 0 -> Split s sep = [s].
Proof.
  induction s as [|c s IH]; simpl; [reflexivity|].
  destruct (Ascii.eqb c sep); [discriminate|].
  intros H. rewrite (IH H). reflexivity.
Qed.

Lemma Split_app (s1 s2 : string) (sep : ascii) :
  count_byte sep s1 = 0 -> Split (s1 +:+ String sep s2) sep = s1 :: Split s2 sep.
Proof.
  induction s1 as [|c s1 IH]; simpl.
  - intros _. rewrite Ascii.eqb_refl. reflexivity.
  - destruct (Ascii.eqb c sep); [discriminate|].
    intros H. rewrite (IH H). reflexivity.
Qed.

Lemma lower_byte_at (c : ascii) : Ascii.eqb (lower_byte c) "@" = Ascii.eqb c "@".
Proof. destruct c as [[] [] [] [] [] [] [] []]; reflexivity. Qed.

Lemma isSpace_not_at (c : ascii) : isSpace c = true -> Ascii.eqb c "@" = false.
Proof. destruct c as [[] [] [] [] [] [] [] []]; intros H; try reflexivity; discriminate H. Qed.

Lemma count_at_ToLower (s : string) : count_byte "@" (ToLower s) = count_byte "@" s.
Proof.
  induction s as [|c s IH]; simpl; [reflexivity|].
  rewrite lower_byte_at, IH. reflexivity.
Qed.

Lemma count_at_TrimLeft (s : string) : count_byte "@" (ascii_TrimLeft s) = count_byte "@" s.
Proof.
  induction s as [|c s IH]; simpl; [reflexivity|].
  destruct (isSpace c) eqn:Sp; [|reflexivity].
  rewrite (isSpace_not_at _ Sp), IH. reflexivity.
Qed.

Lemma count_at_TrimRight (s : string) : count_byte "@" (ascii_TrimRight s) = count_byte "@" s.
Proof.
  induction s as [|c s IH]; simpl; [reflexivity|].
  destruct (ascii_TrimRight s) as [|c' r].
  - rewrite <- IH. destruct (isSpace c) eqn:Sp; simpl.
    + rewrite (isSpace_not_at _ Sp). reflexivity.
    + reflexivity.
  - rewrite <- IH. reflexivity.
Qed.

Lemma count_at_TrimSpace (s : string) : count_byte "@" (ascii_TrimSpace s) = count_byte "@" s.
Proof. unfold ascii_TrimSpace. rewrite count_at_TrimLeft. apply count_at_TrimRight. Qed.

Lemma ToLower_app (s1 s2 : string) : ToLower (s1 +:+ s2) = ToLower s1 +:+ ToLower s2.
Proof. induction s1 as [|c s1 IH]; simpl; [|rewrite IH]; reflexivity. Qed.

Lemma TrimRight_at (user dom : string) :
  ascii_TrimRight (user +:+ String "@" dom) = user +:+ String "@" (ascii_TrimRight dom).
Proof.
  induction user as [|c user IH]; simpl.
  - destruct (ascii_TrimRight dom); reflexivity.
  - rewrite IH. destruct user; reflexivity.
Qed.

Lemma TrimLeft_at (user rest : string) :
  ascii_TrimLeft (user +:+ String "@" rest) = ascii_TrimLeft user +:+ String "@" rest.
Proof.
  induction user as [|c user IH]; simpl; [reflexivity|].
  destruct (isSpace c); [exact IH|reflexivity].
Qed.

Lemma TrimSpace_at (user dom : string) :
  ascii_TrimSpace (user +:+ String "@" dom) = ascii_TrimLeft user +:+ String "@" (ascii_TrimRight dom).
Proof. unfold ascii_TrimSpace. rewrite TrimRight_at. apply TrimLeft_at. Qed.

Lemma count_byte_join (c : ascii) (s1 s2 : string) :
  count_byte c (s1 +:+ String c s2) = S (count_byte c s1 + count_byte c s2).
Proof.
  induction s1 as [|a s1 IH]; simpl.
  - rewrite Ascii.eqb_refl. reflexivity.
  - rewrite IH. destruct (Ascii.eqb a c); lia.
Qed.

(** The ASCII functions of this file are instances of the parameters. *)
Lemma ToLower_transparent_at : transparent_at ToLower.
Proof. intros user dom. rewrite ToLower_app. reflexivity. Qed.

Lemma ToLower_keeps_at_count : keeps_at_count ToLower.
Proof. exact count_at_ToLower. Qed.

Lemma ascii_TrimSpace_keeps_at_count : keeps_at_count ascii_TrimSpace.
Proof. exact count_at_TrimSpace. Qed.

Lemma ascii_TrimSpace_keeps_domain (dom : string) :
  ascii_TrimRight dom = dom -> keeps_domain ascii_TrimSpace dom.
Proof.
  intros E user. exists (ascii_TrimLeft user). rewrite TrimSpace_at, E. reflexivity.
Qed.

(** C8. [GetDomainFromEmail] with Go's [strings.ToLower] and
    [strings.TrimSpace], which handle [@] as every rune-wise function does.
    When the address is a valid mailbox whose addr-spec is [user@domain],
    bare or after a display name, it returns the domain in lower case and no
    error, whatever the letter case.  It returns the parser's error when the
    address is not a valid mailbox, and an error of its own when the parsed
    address does not hold exactly one [@]. *)
Theorem GetDomainFromEmail_domain (ParseAddress : string -> mail_Address + error)
    (strings_ToLower strings_TrimSpace : string -> string) (email : string) :
  transparent_at strings_ToLower ->
  keeps_at_count strings_ToLower ->
  keeps_at_count strings_TrimSpace ->
  (forall name user dom,
      ParseAddress email = inl {| Name := name; Address := user +:+ String "@" dom |} ->
      count_byte "@" user = 0 ->
      count_byte "@" dom = 0 ->
      keeps_domain strings_TrimSpace dom ->
      GetDomainFromEmail ParseAddress strings_ToLower strings_TrimSpace email
      = (strings_ToLower dom, None))
  /\ (forall err,
      ParseAddress email = inr err ->
      GetDomainFromEmail ParseAddress strings_ToLower strings_TrimSpace email
      = (EmptyString, Some err))
  /\ (forall parsed,
      ParseAddress email = inl parsed ->
      count_byte "@" (Address parsed) <> 1 ->
      GetDomainFromEmail ParseAddress strings_ToLower strings_TrimSpace email
      = (EmptyString,
         Some (errors_New "Email address either has not enough or too many @ symbols"))).
Proof.
  intros Lower LowerAt TrimAt. unfold GetDomainFromEmail. repeat split.
  - intros name user dom -> U D Keep. simpl Address.
    destruct (Keep user) as (user' & E). rewrite E.
    assert (U' : count_byte "@" user' = 0).
    { pose proof (TrimAt (user +:+ String "@" dom)) as T. rewrite E in T.
      rewrite !count_byte_join in T. lia. }
    rewrite Lower. unfold processEmail.
    rewrite Split_app by (rewrite LowerAt; exact U').
    rewrite Split_single by (rewrite LowerAt; exact D).
    reflexivity.
  - intros err ->. reflexivity.
  - intros parsed -> N. unfold processEmail.
    rewrite Split_length, LowerAt, TrimAt.
    destruct (count_byte "@" (Address parsed)) as [|[|n]]; [reflexivity|congruence|reflexivity].
Qed.


(** ** The recursion budget *)

(** A run that returns within a budget returns the same with a larger
    one: the budget cuts runs off, it does not change them. *)
Lemma getIPsForRecord_range_mono (net : Net)
    (rec rec' : string -> string -> outcome (list string * option error))
    (domain : string) (spfSections : list string) :
  (forall d r x l, rec d r = Done x l -> rec' d r = Done x l) ->
  forall cidrIPs x l,
    getIPsForRecord_range net rec domain spfSections cidrIPs = Done x l ->
    getIPsForRecord_range net rec' domain spfSections cidrIPs = Done x l.
Proof.
  intros Hrec. induction spfSections as [|element rest IH]; intros cidrIPs x l H.
  - exact H.
  - cbn [getIPsForRecord_range] in H |- *.
    destruct (HasPrefix "v=spf1" element); [auto|].
    destruct (HasPrefix element "ip4"); [auto|].
    destruct (HasPrefix element "include").
    + unfold net_LookupTXT in *. rewrite bind_Done in H |- *.
      apply tell_Done_inv in H as (l' & H & ->).
      destruct (LookupTXT net _) as [txts [e|]]; [rewrite H; reflexivity|].
      destruct (findSPFRecord txts) as [rs [e|]]; [rewrite H; reflexivity|].
      destruct rs as [|spfRecord rs]; [discriminate H|].
      rewrite index_0_cons, bind_Done, tell_nil in H |- *.
      destruct (rec _ spfRecord) as [[recursiveList err] lg| |] eqn:R;
        try discriminate H.
      rewrite (Hrec _ _ _ _ R). rewrite bind_Done in H |- *.
      apply tell_Done_inv in H as (l'' & H & ->).
      rewrite (IH _ _ _ H). reflexivity.
    + destruct (_ || _); [|auto].
      destruct (parseOtherRecord net domain element) as [[otherRecord err] lg| |];
        try discriminate H.
      rewrite bind_Done in H |- *.
      apply tell_Done_inv in H as (l' & H & ->).
      destruct err as [e|]; [rewrite H; reflexivity|].
      rewrite (IH _ _ _ H). reflexivity.
Qed.

Lemma getIPsForRecord_fuel_S (net : Net) (fuel : nat) :
  forall domain record x l,
    getIPsForRecord net fuel domain record = Done x l ->
    getIPsForRecord net (S fuel) domain record = Done x l.
Proof.
  induction fuel as [|fuel IH]; intros domain record x l H; [discriminate H|].
  cbn [getIPsForRecord] in H |- *.
  eapply getIPsForRecord_range_mono; [|exact H].
  exact IH.
Qed.

Lemma Validate_fuel_S (net : Net) (fuel : nat) (sc : spfChecker) (ip domain : string) x l :
  Validate net fuel sc ip domain = Done x l ->
  Validate net (S fuel) sc ip domain = Done x l.
Proof.
  unfold Validate. intros H.
  apply bind_Done_inv in H as ([[rs err] sc'] & l1 & l2 & L & H & ->).
  rewrite L, bind_Done.
  destruct err as [e|]; [rewrite H; reflexivity|].
  destruct rs as [|spfRecord rs]; [discriminate H|].
  rewrite index_0_cons, bind_Done, tell_nil in H |- *.
  cbv zeta in H |- *. rewrite allRecord_statements in H |- *.
  apply bind_Done_inv in H as ([ips err] & l3 & l4 & G & H & ->).
  rewrite (getIPsForRecord_fuel_S _ _ _ _ _ _ G), bind_Done, H. reflexivity.
Qed.

(** ** The statements at concrete inputs *)

(** [Validate_no_policy] on a fresh checker: a domain without TXT records
    and a domain whose TXT records hold no SPF record. *)
Lemma Validate_no_policy_witness :
  Validate policy_net 1 NewSPFChecker "93.95.224.70" "cathalgarvey.me"
  = Done ((false, None), NewSPFChecker) [QueryTXT "cathalgarvey.me"]
  /\ Validate policy_net 1 NewSPFChecker "93.95.224.70" "verify.example"
     = Done ((false, Some (errors_New "Too many SPF records found")), NewSPFChecker)
            [QueryTXT "verify.example"].
Proof.
  split.
  - apply (Validate_no_policy policy_net 1 NewSPFChecker "93.95.224.70"
             "cathalgarvey.me" []);
      [apply cache_ok_New|reflexivity|reflexivity].
  - apply (Validate_no_policy policy_net 1 NewSPFChecker "93.95.224.70"
             "verify.example" ["site-verification=1"]);
      [apply cache_ok_New|reflexivity|reflexivity].
Defined.

(** [Validate_twice] on the policy with an [include]: the first call
    caches the record of [example.org] and issues two TXT queries, the
    second issues the one TXT query of the [include]. *)
Lemma Validate_twice_witness :
  Validate include_net 2 NewSPFChecker "10.1.2.3" "example.org"
  = Done ((true, None),
          {| Cache := <["example.org" := ["v=spf1 include:other.example"]]> ∅ |})
         [QueryTXT "example.org"; QueryTXT "other.example"]
  /\ exists log2,
      Validate include_net 2
        {| Cache := <["example.org" := ["v=spf1 include:other.example"]]> ∅ |}
        "10.1.2.3" "example.org"
      = Done ((true, None),
              {| Cache := <["example.org" := ["v=spf1 include:other.example"]]> ∅ |})
             log2
      /\ Cache {| Cache := <["example.org" := ["v=spf1 include:other.example"]]> ∅ |}
           !! "example.org" = Some ["v=spf1 include:other.example"]
      /\ [QueryTXT "example.org"; QueryTXT "other.example"]
         = QueryTXT "example.org" :: log2.
Proof.
  split; [vm_compute; reflexivity|].
  destruct (Validate_twice include_net 2 NewSPFChecker
              {| Cache := <["example.org" := ["v=spf1 include:other.example"]]> ∅ |}
              "10.1.2.3" "example.org" (true, None)
              [QueryTXT "example.org"; QueryTXT "other.example"])
    as (log2 & V2 & Hit & _); [vm_compute; reflexivity|].
  exists log2. split; [exact V2|].
  apply (Hit ["v=spf1 include:other.example"] "v=spf1 include:other.example");
    reflexivity.
Defined.

(** [Validate_ambiguous_policy] on a domain with two SPF records. *)
Lemma Validate_ambiguous_policy_witness :
  Validate policy_net 1 NewSPFChecker "93.95.224.70" "two.example"
  = Done ((false, Some (errors_New "Too many SPF records found")), NewSPFChecker)
         [QueryTXT "two.example"].
Proof.
  apply (Validate_ambiguous_policy policy_net 1 NewSPFChecker "93.95.224.70"
           "two.example" ["v=spf1 a"; "site-verification=1"; "v=spf1 mx"]);
    [apply cache_ok_New|reflexivity|vm_compute; lia].
Defined.

Lemma passes_over_10 : passes_over policy_net "93.95.224.70" "10.0.0.0/8".
Proof.
  exists {| net_IP := [10; 0; 0; 0]%Z; net_Mask := [255; 0; 0; 0]%Z |}.
  split; reflexivity.
Qed.

Lemma passes_over_71 : passes_over policy_net "93.95.224.70" "93.95.224.71".
Proof.
  exists {| net_IP := [93; 95; 224; 71]%Z; net_Mask := [255; 255; 255; 255]%Z |}.
  split; reflexivity.
Qed.

(** [Validate_range_first_decides]: a parse error before the match, a
    match before a parse error, and no match. *)
Lemma Validate_range_first_decides_witness :
  Validate_range policy_net "93.95.224.70" ["10.0.0.0/8"; "bogus"; "93.95.224.0/24"]
  = (false, Some (ParseError "CIDR address" "bogus/32"))
  /\ Validate_range policy_net "93.95.224.70" ["10.0.0.0/8"; "93.95.224.0/24"; "bogus"]
     = (true, None)
  /\ Validate_range policy_net "93.95.224.70" ["10.0.0.0/8"; "93.95.224.71"]
     = (false, None).
Proof.
  destruct (Validate_range_first_decides policy_net "93.95.224.70") as (E & M & N & _).
  split; [|split].
  - apply (E ["10.0.0.0/8"] "bogus" ["93.95.224.0/24"]);
      [constructor; [exact passes_over_10|constructor]|reflexivity].
  - apply (M ["10.0.0.0/8"] "93.95.224.0/24" ["bogus"]
             {| net_IP := [93; 95; 224; 0]%Z; net_Mask := [255; 255; 255; 0]%Z |});
      [constructor; [exact passes_over_10|constructor]|reflexivity|reflexivity].
  - apply (N ["10.0.0.0/8"; "93.95.224.71"]).
    constructor; [exact passes_over_10|].
    constructor; [exact passes_over_71|constructor].
Defined.

(** [bare_IP_normalization]: the address itself, its neighbour, and a bare
    IPv6 address. *)
Lemma bare_IP_normalization_witness :
  Validate_range policy_net "93.95.224.70" ["93.95.224.70"] = (true, None)
  /\ Validate_range policy_net "93.95.224.71" ["93.95.224.70"] = (false, None)
  /\ elementWithCidr "2001:db8::1" = "2001:db8::1/128".
Proof.
  destruct (bare_IP_normalization policy_net) as (N & _ & _ & _ & B).
  split; [|split].
  - apply (B "93.95.224.70" 70%Z); [reflexivity|lia].
  - apply (B "93.95.224.71" 71%Z); [reflexivity|lia].
  - apply (N "2001:db8::1"). reflexivity.
Defined.


(** [GetDomainFromEmail_domain] with the ASCII functions, on the addresses
    of the test file, on a string that is no address and on a parsed address
    with two [@]. *)
Lemma GetDomainFromEmail_domain_witness :
  GetDomainFromEmail test_ParseAddress ToLower ascii_TrimSpace
    "Cathal <cathalGarvey@garvey.me>" = ("garvey.me", None)
  /\ GetDomainFromEmail test_ParseAddress ToLower ascii_TrimSpace "cathal@Garvey.Me"
     = ("garvey.me", None)
  /\ GetDomainFromEmail test_ParseAddress ToLower ascii_TrimSpace "cathal"
     = (EmptyString, Some (AddressError "mail: missing '@' or angle-addr"))
  /\ GetDomainFromEmail test_ParseAddress ToLower ascii_TrimSpace quoted_local_email
     = (EmptyString,
        Some (errors_New "Email address either has not enough or too many @ symbols")).
Proof.
  split; [|split; [|split]].
  - apply (proj1 (GetDomainFromEmail_domain test_ParseAddress ToLower ascii_TrimSpace
                    "Cathal <cathalGarvey@garvey.me>"
                    ToLower_transparent_at ToLower_keeps_at_count
                    ascii_TrimSpace_keeps_at_count)
             "Cathal" "cathalGarvey" "garvey.me");
      [reflexivity|reflexivity|reflexivity|].
    apply ascii_TrimSpace_keeps_domain. reflexivity.
  - apply (proj1 (GetDomainFromEmail_domain test_ParseAddress ToLower ascii_TrimSpace
                    "cathal@Garvey.Me"
                    ToLower_transparent_at ToLower_keeps_at_count
                    ascii_TrimSpace_keeps_at_count)
             EmptyString "cathal" "Garvey.Me");
      [reflexivity|reflexivity|reflexivity|].
    apply ascii_TrimSpace_keeps_domain. reflexivity.
  - apply (proj1 (proj2 (GetDomainFromEmail_domain test_ParseAddress ToLower
                           ascii_TrimSpace "cathal"
                           ToLower_transparent_at ToLower_keeps_at_count
                           ascii_TrimSpace_keeps_at_count))).
    reflexivity.
  - apply (proj2 (proj2 (GetDomainFromEmail_domain test_ParseAddress ToLower
                           ascii_TrimSpace quoted_local_email
                           ToLower_transparent_at ToLower_keeps_at_count
                           ascii_TrimSpace_keeps_at_count))
             {| Name := EmptyString; Address := "a@b@example.com" |}); [reflexivity|].
    vm_compute. lia.
Defined.

(** [Validate_error_false] on the domain with two SPF records. *)
Lemma Validate_error_false_witness :
  Validate policy_net 1 NewSPFChecker "93.95.224.70" "two.example"
  = Done ((false, Some (errors_New "Too many SPF records found")), NewSPFChecker)
         [QueryTXT "two.example"]
  /\ false = false.
Proof.
  split; [vm_compute; reflexivity|].
  apply (Validate_error_false policy_net 1 NewSPFChecker NewSPFChecker
           "93.95.224.70" "two.example" false
           (errors_New "Too many SPF records found") [QueryTXT "two.example"]).
  vm_compute. reflexivity.
Defined.

(** * Further properties of the code *)

(** ** What the membership loop accepts *)

(** X1. The loop of [Validate] returns [true] only with a nil error and
    only when one of the specs, after normalisation, parses to a block that
    contains the candidate. *)
Theorem Validate_range_true_sound (net : Net) (ip : string) (ips : list string)
    (err : option error) :
  Validate_range net ip ips = (true, err) ->
  err = None /\ Exists (accepts net ip) ips.
Proof.
  induction ips as [|element rest IH]; simpl; [discriminate|].
  destruct (ParseCIDR _ _) as [cidrnet|e] eqn:P; [|discriminate].
  destruct (IPNet_Contains _ _) eqn:C.
  - intros [= <-]. split; [reflexivity|].
    apply Exists_cons_hd. exists cidrnet. auto.
  - intros H. destruct (IH H) as [-> E]. split; [reflexivity|].
    apply Exists_cons_tl, E.
Qed.

Lemma Validate_range_true_sound_witness :
  None = @None error
  /\ Exists (accepts policy_net "93.95.224.70") ["10.0.0.0/8"; "93.95.224.0/24"; "bogus"].
Proof.
  apply (Validate_range_true_sound policy_net "93.95.224.70"
           ["10.0.0.0/8"; "93.95.224.0/24"; "bogus"] None).
  reflexivity.
Defined.

Lemma length_CIDRMask_bytes (l : nat) (n : Z) : length (CIDRMask_bytes l n) = l.
Proof.
  revert n. induction l as [|l IH]; intros n; [reflexivity|].
  simpl. destruct (8 <=? n)%Z; simpl; rewrite IH; reflexivity.
Qed.

Lemma length_parseIPv4 (s : string) (ip : IP) : parseIPv4 s = Some ip -> length ip = 4.
Proof.
  unfold parseIPv4.
  destruct (Split s ".") as [|a [|b [|c [|d [|x l]]]]]; try discriminate.
  destruct (parseOctet a), (parseOctet b), (parseOctet c), (parseOctet d);
    try discriminate.
  intros [= <-]. reflexivity.
Qed.

Lemma length_4_inv {A : Type} (l : list A) :
  length l = 4 -> exists a b c d, l = [a; b; c; d].
Proof.
  destruct l as [|a [|b [|c [|d [|x l]]]]]; try discriminate. eauto.
Qed.

Lemma length_16_inv {A : Type} (l : list A) :
  length l = 16 ->
  exists a0 a1 a2 a3 a4 a5 a6 a7 a8 a9 a10 a11 a12 a13 a14 a15,
    l = [a0; a1; a2; a3; a4; a5; a6; a7; a8; a9; a10; a11; a12; a13; a14; a15].
Proof.
  intros H.
  do 16 (destruct l as [|? l]; [discriminate H|]).
  destruct l; [|discriminate H]. eauto 20.
Qed.

(** A block that [ParseCIDR] returns never contains the [nil] address. *)
Lemma ParseCIDR_excludes_nil (parse6 : string -> option IP) (s : string) (n : IPNet) :
  (forall t ip6, parse6 t = Some ip6 -> length ip6 = 16) ->
  ParseCIDR parse6 s = inl n -> IPNet_Contains n [] = false.
Proof.
  intros Len. unfold ParseCIDR.
  destruct (cutSlash s) as [[a mask]|]; [|discriminate].
  destruct (parseAddr parse6 a) as [ipAddr|] eqn:PA; [|discriminate].
  destruct (dtoi mask) as [bits|]; [|discriminate].
  destruct (BitLen ipAddr <? bits)%Z; [discriminate|].
  intros [= <-].
  unfold parseAddr in PA. destruct (firstSep a) as [c|]; [|discriminate].
  assert (Fam : (exists ip4, ipAddr = Addr4 ip4 /\ length ip4 = 4)
                \/ (exists ip6, ipAddr = Addr6 ip6 /\ length ip6 = 16)).
  { destruct (Ascii.eqb_spec c ".") as [->|N].
    - destruct (parseIPv4 a) as [ip4|] eqn:P4; [|discriminate].
      injection PA as <-. left. exists ip4. eauto using length_parseIPv4.
    - assert (PA' : Addr6 <$> parse6 a = Some ipAddr).
      { destruct c as [[] [] [] [] [] [] [] []]; try exact PA. congruence. }
      destruct (parse6 a) as [ip6|] eqn:P6; [|discriminate].
      injection PA' as <-. right. exists ip6. eauto. }
  destruct Fam as [(ip4 & -> & L)|(ip6 & -> & L)].
  - destruct (length_4_inv _ L) as (x1 & x2 & x3 & x4 & ->).
    unfold BitLen, CIDRMask. change (Z.to_nat (32 / 8)) with 4%nat.
    destruct (length_4_inv _ (length_CIDRMask_bytes 4 bits)) as (m1 & m2 & m3 & m4 & ->).
    reflexivity.
  - destruct (length_16_inv _ L)
      as (x0 & x1 & x2 & x3 & x4 & x5 & x6 & x7 & x8 & x9 & x10 & x11 & x12 & x13
          & x14 & x15 & ->).
    unfold BitLen, CIDRMask. change (Z.to_nat (128 / 8)) with 16%nat.
    destruct (length_16_inv _ (length_CIDRMask_bytes 16 bits))
      as (m0 & m1 & m2 & m3 & m4 & m5 & m6 & m7 & m8 & m9 & m10 & m11 & m12 & m13
          & m14 & m15 & ->).
    unfold IPNet_Contains, networkNumberAndMask, To4, IP_Mask, As16.
    cbn [net_IP net_Mask length Nat.eqb andb zip_with].
    destruct (list_Z_eqb _ _); reflexivity.
Qed.

(** X2. A candidate string that is not an IP address is never accepted:
    when [net.ParseIP] gives [nil] for it, the loop of [Validate] returns
    [false], whatever the specs are (a malformed spec still gives its parse
    error).  The IPv6 text parser is assumed to return 16 bytes. *)
Theorem Validate_range_unparsable_ip (net : Net) (ip : string) (ips : list string) :
  (forall t ip6, parseIPv6 net t = Some ip6 -> length ip6 = 16) ->
  ParseIP (parseIPv6 net) ip = [] ->
  fst (Validate_range net ip ips) = false.
Proof.
  intros Len Nil. induction ips as [|element rest IH]; simpl; [reflexivity|].
  destruct (ParseCIDR _ _) as [cidrnet|e] eqn:P; [|reflexivity].
  rewrite Nil, (ParseCIDR_excludes_nil _ _ _ Len P). exact IH.
Qed.

Lemma Validate_range_unparsable_ip_witness :
  fst (Validate_range policy_net "mail.1984.is" ["0.0.0.0/0"; "93.95.224.70"]) = false.
Proof.
  apply (Validate_range_unparsable_ip policy_net "mail.1984.is"
           ["0.0.0.0/0"; "93.95.224.70"]); [|reflexivity].
  intros t ip6 H. discriminate H.
Defined.

(** ** How [Validate] changes the cache *)

(** [LookupSPFRecords] leaves the checker as it was, or adds the single
    SPF record of a domain that was not cached. *)
Lemma LookupSPFRecords_change (net : Net) sc domain x sc' log :
  LookupSPFRecords net sc domain = Done (x, sc') log ->
  sc' = sc
  \/ (Cache sc !! domain = None
      /\ exists txts r,
          LookupTXT net domain = (txts, None)
          /\ List.filter is_spf1 txts = [r]
          /\ sc' = {| Cache := <[domain := [r]]> (Cache sc) |}).
Proof.
  intros H. destruct (Cache sc !! domain) as [rs|] eqn:C.
  - rewrite (LookupSPFRecords_hit _ _ _ _ C) in H. left. congruence.
  - rewrite (LookupSPFRecords_miss _ _ _ C) in H.
    destruct (LookupTXT net domain) as [txts [e|]] eqn:L; [left; congruence|].
    destruct txts as [|t txts]; [left; congruence|].
    destruct (findSPFRecord (t :: txts)) as [spfRs [e|]] eqn:F; [left; congruence|].
    destruct (findSPFRecord_ok _ _ F) as (r & -> & Fil).
    right. split; [reflexivity|]. exists (t :: txts), r.
    repeat split; [exact Fil|congruence].
Qed.

Lemma Validate_change (net : Net) fuel sc ip domain r sc' log :
  Validate net fuel sc ip domain = Done (r, sc') log ->
  sc' = sc
  \/ (Cache sc !! domain = None
      /\ exists txts rd,
          LookupTXT net domain = (txts, None)
          /\ List.filter is_spf1 txts = [rd]
          /\ sc' = {| Cache := <[domain := [rd]]> (Cache sc) |}).
Proof.
  intros H. apply Validate_inv in H as (l & err & ? & ? & L & _).
  eapply LookupSPFRecords_change, L.
Qed.

(** X3. A [Validate] call that returns changes the cache at most at the
    queried domain, and only when that domain was not cached: entries of
    other domains are untouched, an existing entry is never replaced, and
    an entry that appears holds the one [v=spf1] record among the TXT
    records of the domain. *)
Theorem Validate_cache_frame (net : Net) (fuel : nat) (sc sc' : spfChecker)
    (ip domain : string) (r : bool * option error) (log : list query) :
  Validate net fuel sc ip domain = Done (r, sc') log ->
  (forall d, d <> domain -> Cache sc' !! d = Cache sc !! d)
  /\ (forall rs, Cache sc !! domain = Some rs -> sc' = sc)
  /\ (forall rs, Cache sc' !! domain = Some rs ->
        Cache sc !! domain = Some rs
        \/ exists txts rd,
            LookupTXT net domain = (txts, None)
            /\ List.filter (fun record => HasPrefix record "v=spf1") txts = [rd]
            /\ rs = [rd]).
Proof.
  intros H.
  destruct (Validate_change _ _ _ _ _ _ _ _ H) as [->|(C & txts & rd & L & F & ->)].
  - repeat split; auto.
  - repeat split.
    + intros d N. simpl. apply lookup_insert_ne. congruence.
    + intros rs C'. congruence.
    + intros rs. simpl. rewrite lookup_insert_eq. intros [= <-].
      right. exists txts, rd. auto.
Qed.

Lemma Validate_cache_frame_witness :
  (forall d, d <> "example.org" ->
     Cache {| Cache := <["example.org" := ["v=spf1 include:other.example"]]> ∅ |} !! d
     = Cache NewSPFChecker !! d)
  /\ (forall rs, Cache NewSPFChecker !! "example.org" = Some rs ->
        {| Cache := <["example.org" := ["v=spf1 include:other.example"]]> ∅ |}
        = NewSPFChecker)
  /\ (forall rs,
        Cache {| Cache := <["example.org" := ["v=spf1 include:other.example"]]> ∅ |}
          !! "example.org" = Some rs ->
        Cache NewSPFChecker !! "example.org" = Some rs
        \/ exists txts rd,
            LookupTXT include_net "example.org" = (txts, None)
            /\ List.filter (fun record => HasPrefix record "v=spf1") txts = [rd]
            /\ rs = [rd]).
Proof.
  apply (Validate_cache_frame include_net 2 NewSPFChecker
           {| Cache := <["example.org" := ["v=spf1 include:other.example"]]> ∅ |}
           "10.1.2.3" "example.org" (true, None)
           [QueryTXT "example.org"; QueryTXT "other.example"]).
  vm_compute. reflexivity.
Defined.

Lemma filter_is_spf1_one (txts : list string) (r : string) :
  List.filter is_spf1 txts = [r] -> HasPrefix r "v=spf1" = true.
Proof.
  intros F. assert (I : In r (List.filter is_spf1 txts)) by (rewrite F; left; reflexivity).
  apply List.filter_In in I. exact (proj2 I).
Qed.

(** X4. Every list in the cache holds exactly one record and that record
    starts with [v=spf1]: this is so in a new checker and after
    [DumpCache], and a [Validate] call keeps it so. *)
Theorem cache_singletons_invariant (net : Net) :
  cache_singletons NewSPFChecker
  /\ (forall sc, cache_singletons (DumpCache sc))
  /\ (forall fuel sc sc' ip domain r log,
        cache_singletons sc ->
        Validate net fuel sc ip domain = Done (r, sc') log ->
        cache_singletons sc').
Proof.
  assert (E : cache_singletons NewSPFChecker).
  { intros d rs H. simpl in H. rewrite lookup_empty in H. discriminate. }
  split; [exact E|]. split; [intros sc; exact E|].
  intros fuel sc sc' ip domain r log Inv H.
  destruct (Validate_change _ _ _ _ _ _ _ _ H) as [->|(C & txts & rd & L & F & ->)];
    [exact Inv|].
  intros d rs. simpl. rewrite lookup_insert.
  case_decide as D; [|apply Inv].
  intros [= <-]. exists rd. split; [reflexivity|].
  eapply filter_is_spf1_one, F.
Qed.

Lemma cache_singletons_invariant_witness :
  cache_singletons {| Cache := <["example.org" := ["v=spf1 include:other.example"]]> ∅ |}.
Proof.
  apply (proj2 (proj2 (cache_singletons_invariant include_net)) 2 NewSPFChecker
           {| Cache := <["example.org" := ["v=spf1 include:other.example"]]> ∅ |}
           "10.1.2.3" "example.org" (true, None)
           [QueryTXT "example.org"; QueryTXT "other.example"]).
  - apply (proj1 (cache_singletons_invariant include_net)).
  - vm_compute. reflexivity.
Defined.

(** X5. After [DumpCache] nothing is cached: the next [Validate] call for
    any domain starts with a TXT query for that domain. *)
Theorem DumpCache_fresh_lookup (net : Net) (fuel : nat) (sc sc' : spfChecker)
    (ip domain : string) (r : bool * option error) (log : list query) :
  Validate net fuel (DumpCache sc) ip domain = Done (r, sc') log ->
  exists log', log = QueryTXT domain :: log'.
Proof.
  intros H. apply Validate_inv in H as (l & err & l1 & l2 & L & -> & _).
  destruct (LookupSPFRecords_Done net (DumpCache sc) domain)
    as (l0 & err0 & sc0 & log0 & L0 & Cases).
  rewrite L in L0. injection L0 as <- <- <- <-.
  assert (C : Cache (DumpCache sc) !! domain = None) by apply lookup_empty.
  exists l2. destruct err as [e|].
  - destruct Cases as (_ & _ & ->). reflexivity.
  - destruct Cases as (_ & [(_ & _ & C')|(-> & _)]); [congruence|reflexivity].
Qed.

Lemma DumpCache_fresh_lookup_witness :
  exists log',
    [QueryTXT "example.org"; QueryTXT "other.example"] = QueryTXT "example.org" :: log'.
Proof.
  apply (DumpCache_fresh_lookup include_net 2
           {| Cache := <["example.org" := ["v=spf1 include:other.example"]]> ∅ |}
           {| Cache := <["example.org" := ["v=spf1 include:other.example"]]> ∅ |}
           "10.1.2.3" "example.org" (true, None)).
  vm_compute. reflexivity.
Defined.

(** ** Index expressions never go out of range *)

Lemma tell_Panic {A : Type} (l : list query) (m : outcome A) :
  tell l m = Panic -> m = Panic.
Proof. destruct m; unfold tell; simpl; congruence. Qed.

Lemma parseOtherRecord_a_Done (net : Net) (domain : string) :
  exists x, parseOtherRecord_a net domain = Done x [QueryIP domain].
Proof.
  unfold parseOtherRecord_a, net_LookupIP.
  destruct (LookupIP net domain) as [ip [e|]]; simpl; eauto.
Qed.

Lemma parseOtherRecord_mx_Done (net : Net) (ip : list MX) :
  forall ipList, exists x l, parseOtherRecord_mx net ip ipList = Done x l.
Proof.
  induction ip as [|element rest IH]; intros ipList; simpl; [unfold ret; eauto|].
  destruct (parseOtherRecord_a_Done net (Host element)) as ([l e] & ->).
  rewrite bind_Done. destruct e as [e|]; [unfold ret, tell; simpl; eauto|].
  destruct (IH (ipList ++ l)) as (x & lg & ->). unfold tell. simpl. eauto.
Qed.

(** [parseOtherRecord] always returns. *)
Lemma parseOtherRecord_Done (net : Net) (domain record : string) :
  exists x l, parseOtherRecord net domain record = Done x l.
Proof.
  unfold parseOtherRecord.
  destruct (String.eqb record "a").
  - destruct (parseOtherRecord_a_Done net domain) as (x & ->). eauto.
  - destruct (String.eqb record "mx"); [|unfold ret; eauto].
    unfold net_LookupMX. rewrite bind_Done.
    destruct (LookupMX net domain) as [ip [e|]]; [unfold ret, tell; simpl; eauto|].
    destruct (parseOtherRecord_mx_Done net ip []) as (x & l & ->).
    unfold tell. simpl. eauto.
Qed.

Lemma getIPsForRecord_range_no_Panic (net : Net)
    (rec : string -> string -> outcome (list string * option error))
    (domain : string) (spfSections : list string) :
  (forall d r, rec d r <> Panic) ->
  forall cidrIPs, getIPsForRecord_range net rec domain spfSections cidrIPs <> Panic.
Proof.
  intros Hrec. induction spfSections as [|element rest IH]; intros cidrIPs.
  - discriminate.
  - cbn [getIPsForRecord_range].
    destruct (HasPrefix "v=spf1" element); [apply IH|].
    destruct (HasPrefix element "ip4"); [apply IH|].
    destruct (HasPrefix element "include").
    + unfold net_LookupTXT. rewrite bind_Done. intros H. apply tell_Panic in H.
      destruct (LookupTXT net _) as [txts [e|]]; [discriminate H|].
      destruct (findSPFRecord txts) as [rs [e|]] eqn:F; [discriminate H|].
      destruct (findSPFRecord_ok _ _ F) as (r & -> & _).
      rewrite index_0_cons, bind_Done, tell_nil in H.
      destruct (rec _ r) as [[recursiveList err] lg| |] eqn:R.
      * rewrite bind_Done in H. apply tell_Panic in H. exact (IH _ H).
      * exact (Hrec _ _ R).
      * discriminate H.
    + destruct (_ || _); [|apply IH].
      destruct (parseOtherRecord_Done net domain element) as ([l err] & lg & ->).
      rewrite bind_Done. intros H. apply tell_Panic in H.
      destruct err as [e|]; [discriminate H|exact (IH _ H)].
Qed.

Lemma getIPsForRecord_no_Panic (net : Net) (fuel : nat) :
  forall domain record, getIPsForRecord net fuel domain record <> Panic.
Proof.
  induction fuel as [|fuel IH]; intros domain record; [discriminate|].
  cbn [getIPsForRecord]. apply getIPsForRecord_range_no_Panic, IH.
Qed.

(** X6. No index expression of [Validate] and of the functions it calls
    goes out of range: from a checker whose cached lists are singletons
    (every checker that [Validate] alone has filled), [Validate] does not
    panic. *)
Theorem Validate_no_Panic (net : Net) (fuel : nat) (sc : spfChecker) (ip domain : string) :
  cache_singletons sc -> Validate net fuel sc ip domain <> Panic.
Proof.
  intros Inv.
  destruct (LookupSPFRecords_Done net sc domain) as (l & err & sc' & log & L & Cases).
  unfold Validate. rewrite L, bind_Done. intros H. apply tell_Panic in H.
  destruct err as [e|]; [destruct e; discriminate H|].
  destruct Cases as (C' & _).
  assert (Inv' : cache_singletons sc').
  { destruct (LookupSPFRecords_change _ _ _ _ _ _ L) as [->|(C & txts & rd & _ & F & ->)];
      [exact Inv|].
    intros d rs. simpl. rewrite lookup_insert.
    case_decide as D; [|apply Inv].
    intros [= <-]. exists rd. split; [reflexivity|].
    eapply filter_is_spf1_one, F. }
  destruct (Inv' _ _ C') as (r & -> & _).
  rewrite index_0_cons, bind_Done, tell_nil in H.
  cbv zeta in H. rewrite allRecord_statements in H.
  destruct (getIPsForRecord net fuel domain r) as [[ips err] lg| |] eqn:G.
  - rewrite bind_Done in H. apply tell_Panic in H. destruct err; discriminate H.
  - exact (getIPsForRecord_no_Panic _ _ _ _ G).
  - discriminate H.
Qed.

Lemma Validate_no_Panic_witness :
  Validate include_net 2
    {| Cache := <["example.org" := ["v=spf1 include:other.example"]]> ∅ |}
    "10.1.2.3" "example.org" <> Panic.
Proof.
  apply (Validate_no_Panic include_net 2
           {| Cache := <["example.org" := ["v=spf1 include:other.example"]]> ∅ |}
           "10.1.2.3" "example.org").
  intros d rs. simpl. rewrite lookup_insert.
  case_decide as D; [|rewrite lookup_empty; discriminate].
  intros [= <-]. exists "v=spf1 include:other.example". split; reflexivity.
Defined.

(** The singleton invariant is what keeps [spfRecordList[0]] in range. *)
Example Validate_panics_on_empty_entry :
  Validate policy_net 1 {| Cache := <["two.example" := []]> ∅ |} "93.95.224.70" "two.example"
  = Panic.
Proof. vm_compute. reflexivity. Qed.

(** ** The [a] and [mx] mechanisms *)

Lemma lower_byte_a (c : ascii) : lower_byte c = "a"%char -> c = "a"%char \/ c = "A"%char.
Proof.
  destruct c as [[] [] [] [] [] [] [] []]; intros H;
    first [left; reflexivity | right; reflexivity | discriminate H].
Qed.

Lemma lower_byte_m (c : ascii) : lower_byte c = "m"%char -> c = "m"%char \/ c = "M"%char.
Proof.
  destruct c as [[] [] [] [] [] [] [] []]; intros H;
    first [left; reflexivity | right; reflexivity | discriminate H].
Qed.

Lemma lower_byte_x (c : ascii) : lower_byte c = "x"%char -> c = "x"%char \/ c = "X"%char.
Proof.
  destruct c as [[] [] [] [] [] [] [] []]; intros H;
    first [left; reflexivity | right; reflexivity | discriminate H].
Qed.

Lemma ToLower_a (element : string) :
  ToLower element = "a" -> element = "a" \/ element = "A".
Proof.
  destruct element as [|c [|c' s]]; simpl; try discriminate.
  intros [= H]. destruct (lower_byte_a _ H) as [->| ->]; auto.
Qed.

Lemma ToLower_mx (element : string) :
  ToLower element = "mx" ->
  element = "mx" \/ element = "mX" \/ element = "Mx" \/ element = "MX".
Proof.
  destruct element as [|c1 [|c2 [|c3 s]]]; simpl; try discriminate.
  intros [= H1 H2].
  destruct (lower_byte_m _ H1) as [->| ->], (lower_byte_x _ H2) as [->| ->]; auto.
Qed.

(** X7. The loop of [getIPsForRecord] recognises [a] and [mx] in any
    letter case, but [parseOtherRecord] compares the token as written: a
    token [A], [MX], [Mx] or [mX] makes the resolution fail with
    ["Unknown Record for SPF"], without any DNS query and whatever was
    resolved before it. *)
Theorem upper_case_mechanism_fails (net : Net)
    (rec : string -> string -> outcome (list string * option error))
    (domain element : string) (rest cidrIPs : list string) :
  ToLower element = "a" \/ ToLower element = "mx" ->
  element <> "a" -> element <> "mx" ->
  getIPsForRecord_range net rec domain (element :: rest) cidrIPs
  = Done ([], Some (errors_New "Unknown Record for SPF")) [].
Proof.
  intros [L|L] Na Nmx.
  - destruct (ToLower_a _ L) as [->| ->]; [congruence|reflexivity].
  - destruct (ToLower_mx _ L) as [->|[->|[->| ->]]]; [congruence|reflexivity..].
Qed.

Lemma upper_case_mechanism_fails_witness :
  getIPsForRecord_range mx_net (getIPsForRecord mx_net 0) "example.org"
    ["MX"; "ip4:10.0.0.0/8"] ["192.0.2.1"]
  = Done ([], Some (errors_New "Unknown Record for SPF")) [].
Proof.
  apply (upper_case_mechanism_fails mx_net (getIPsForRecord mx_net 0) "example.org"
           "MX" ["ip4:10.0.0.0/8"] ["192.0.2.1"]);
    [right; reflexivity|discriminate|discriminate].
Defined.

(** The loop over the MX hosts when every host resolves. *)
Lemma parseOtherRecord_mx_all (net : Net) (ip : list MX) :
  Forall (fun m => snd (LookupIP net (Host m)) = None) ip ->
  forall ipList,
    parseOtherRecord_mx net ip ipList
    = Done (ipList ++ flat_map (host_addresses net) ip, None)
           (map (fun m => QueryIP (Host m)) ip).
Proof.
  induction 1 as [|m ip Hm _ IH]; intros ipList; simpl.
  - rewrite app_nil_r. reflexivity.
  - unfold parseOtherRecord_a, net_LookupIP. rewrite bind_Done.
    unfold host_addresses at 1.
    destruct (LookupIP net (Host m)) as [ips e]. simpl in Hm. subst e.
    unfold ret at 1. rewrite tell_Done, bind_Done, IH, tell_Done.
    simpl. rewrite <- List.app_assoc. reflexivity.
Qed.

(** The loop over the MX hosts when a host fails to resolve. *)
Lemma parseOtherRecord_mx_fail (net : Net) (pre : list MX) (m : MX) (post : list MX)
    (ips : list IP) (e : error) :
  Forall (fun m => snd (LookupIP net (Host m)) = None) pre ->
  LookupIP net (Host m) = (ips, Some e) ->
  forall ipList,
    parseOtherRecord_mx net (pre ++ m :: post) ipList
    = Done ([], Some e) (map (fun m => QueryIP (Host m)) (pre ++ [m])).
Proof.
  intros Pre Hm. induction Pre as [|m0 pre Hm0 _ IH]; intros ipList; simpl.
  - unfold parseOtherRecord_a, net_LookupIP. rewrite bind_Done, Hm. reflexivity.
  - unfold parseOtherRecord_a, net_LookupIP. rewrite bind_Done.
    destruct (LookupIP net (Host m0)) as [ips0 e0]. simpl in Hm0. subst e0.
    unfold ret at 1. rewrite tell_Done, bind_Done, IH, tell_Done.
    reflexivity.
Qed.

(** X8. The [mx] mechanism asks for the MX hosts of the domain and then
    for the addresses of each host, in the order of the answer.  When all
    hosts resolve, the result is the list of their addresses as text, host
    after host; when a host fails to resolve, the result is that error with
    an empty list and the hosts after it are not asked for; the error of the
    MX lookup itself is returned likewise. *)
Theorem parseOtherRecord_mx_expansion (net : Net) (domain : string) :
  (forall mxs,
      LookupMX net domain = (mxs, None) ->
      Forall (fun m => snd (LookupIP net (Host m)) = None) mxs ->
      parseOtherRecord net domain "mx"
      = Done (flat_map (host_addresses net) mxs, None)
             (QueryMX domain :: map (fun m => QueryIP (Host m)) mxs))
  /\ (forall pre m post ips e,
      LookupMX net domain = (pre ++ m :: post, None) ->
      Forall (fun m => snd (LookupIP net (Host m)) = None) pre ->
      LookupIP net (Host m) = (ips, Some e) ->
      parseOtherRecord net domain "mx"
      = Done ([], Some e)
             (QueryMX domain :: map (fun m => QueryIP (Host m)) (pre ++ [m])))
  /\ (forall mxs e,
      LookupMX net domain = (mxs, Some e) ->
      parseOtherRecord net domain "mx" = Done ([], Some e) [QueryMX domain]).
Proof.
  unfold parseOtherRecord. change (String.eqb "mx" "a") with false.
  change (String.eqb "mx" "mx") with true. cbv iota.
  unfold net_LookupMX. repeat split.
  - intros mxs L All. rewrite bind_Done, L, (parseOtherRecord_mx_all _ _ All).
    reflexivity.
  - intros pre m post ips e L Pre Hm.
    rewrite bind_Done, L, (parseOtherRecord_mx_fail _ _ _ _ _ _ Pre Hm). reflexivity.
  - intros mxs e L. rewrite bind_Done, L. reflexivity.
Qed.

Lemma parseOtherRecord_mx_expansion_witness :
  parseOtherRecord mx_net "example.org" "mx"
  = Done (["10.0.0.1"; "10.0.0.2"], None)
         [QueryMX "example.org"; QueryIP "mx1.example.org"; QueryIP "mx2.example.org"]
  /\ parseOtherRecord mx_net "example.net" "mx"
     = Done ([], Some (DNSError "no such host"))
            [QueryMX "example.net"; QueryIP "mx1.example.org"; QueryIP "gone.example.org"].
Proof.
  split.
  - apply (proj1 (parseOtherRecord_mx_expansion mx_net "example.org")
             [{| Host := "mx1.example.org"; Pref := 10 |};
              {| Host := "mx2.example.org"; Pref := 20 |}]);
      [reflexivity|repeat constructor].
  - apply (proj1 (proj2 (parseOtherRecord_mx_expansion mx_net "example.net"))
             [{| Host := "mx1.example.org"; Pref := 10 |}]
             {| Host := "gone.example.org"; Pref := 20 |}
             [{| Host := "mx2.example.org"; Pref := 30 |}] []
             (DNSError "no such host"));
      [reflexivity|repeat constructor|reflexivity].
Defined.

(** X9. The [a] mechanism resolves the domain being processed (inside an
    [include], the included domain): its addresses, as text, are appended
    to the specs resolved so far and the loop goes on; when the lookup
    fails, the loop stops with that error and an empty list. *)
Theorem a_mechanism_step (net : Net)
    (rec : string -> string -> outcome (list string * option error))
    (domain : string) (rest cidrIPs : list string) :
  (forall ips,
      LookupIP net domain = (ips, None) ->
      getIPsForRecord_range net rec domain ("a" :: rest) cidrIPs
      = tell [QueryIP domain]
          (getIPsForRecord_range net rec domain rest
             (cidrIPs ++ map (IP_String net) ips)))
  /\ (forall ips e,
      LookupIP net domain = (ips, Some e) ->
      getIPsForRecord_range net rec domain ("a" :: rest) cidrIPs
      = Done ([], Some e) [QueryIP domain]).
Proof.
  change (getIPsForRecord_range net rec domain ("a" :: rest) cidrIPs)
    with (let* (otherRecord, err) := parseOtherRecord_a net domain in
          match err with
          | Some e => ret ([], Some e)
          | None => getIPsForRecord_range net rec domain rest (cidrIPs ++ otherRecord)
          end).
  unfold parseOtherRecord_a, net_LookupIP. split.
  - intros ips L. rewrite bind_Done, L. unfold ret. rewrite tell_Done, bind_Done.
    reflexivity.
  - intros ips e L. rewrite bind_Done, L. reflexivity.
Qed.

Lemma a_mechanism_step_witness :
  getIPsForRecord_range mx_net (getIPsForRecord mx_net 0) "mx1.example.org"
    ["a"; "ip4:192.0.2.0/24"] ["198.51.100.7"]
  = tell [QueryIP "mx1.example.org"]
      (getIPsForRecord_range mx_net (getIPsForRecord mx_net 0) "mx1.example.org"
         ["ip4:192.0.2.0/24"] (["198.51.100.7"] ++ map (IP_String mx_net) [[10; 0; 0; 1]%Z]))
  /\ getIPsForRecord_range mx_net (getIPsForRecord mx_net 0) "example.org"
       ["a"; "ip4:192.0.2.0/24"] ["198.51.100.7"]
     = Done ([], Some (DNSError "no such host")) [QueryIP "example.org"].
Proof.
  split.
  - apply (proj1 (a_mechanism_step mx_net (getIPsForRecord mx_net 0) "mx1.example.org"
                    ["ip4:192.0.2.0/24"] ["198.51.100.7"])).
    reflexivity.
  - apply (proj2 (a_mechanism_step mx_net (getIPsForRecord mx_net 0) "example.org"
                    ["ip4:192.0.2.0/24"] ["198.51.100.7"]) []).
    reflexivity.
Defined.

(** ** Failures at an [include] *)

(** X10. At an [include] token, a failing TXT lookup of the included
    domain stops the loop with that error, and so does an included domain
    whose TXT records do not hold exactly one [v=spf1] record (none as well
    as several): the result is the error with an empty list, the specs
    resolved so far are dropped and the later tokens are not looked at. *)
Theorem include_failure_aborts (net : Net)
    (rec : string -> string -> outcome (list string * option error))
    (domain element : string) (rest cidrIPs : list string) :
  HasPrefix element "include" = true ->
  (forall txts e,
      LookupTXT net (Replace element "include:") = (txts, Some e) ->
      getIPsForRecord_range net rec domain (element :: rest) cidrIPs
      = Done ([], Some e) [QueryTXT (Replace element "include:")])
  /\ (forall txts,
      LookupTXT net (Replace element "include:") = (txts, None) ->
      length (List.filter (fun record => HasPrefix record "v=spf1") txts) <> 1 ->
      getIPsForRecord_range net rec domain (element :: rest) cidrIPs
      = Done ([], Some (errors_New "Too many SPF records found"))
             [QueryTXT (Replace element "include:")]).
Proof.
  intros I. destruct (include_token _ I) as [V P].
  cbn [getIPsForRecord_range]. rewrite V, P, I. unfold net_LookupTXT. split.
  - intros txts e L. rewrite bind_Done, L. reflexivity.
  - intros txts L N. rewrite bind_Done, L, (findSPFRecord_not_one _ N). reflexivity.
Qed.

Lemma include_failure_aborts_witness :
  getIPsForRecord_range policy_net (getIPsForRecord policy_net 1) "example.org"
    ["include:verify.example"; "ip4:10.0.0.0/8"] ["192.0.2.1"]
  = Done ([], Some (errors_New "Too many SPF records found")) [QueryTXT "verify.example"].
Proof.
  apply (proj2 (include_failure_aborts policy_net (getIPsForRecord policy_net 1)
                  "example.org" "include:verify.example" ["ip4:10.0.0.0/8"]
                  ["192.0.2.1"] eq_refl) ["site-verification=1"]);
    [reflexivity|discriminate].
Defined.

(** ** Policies that need no DNS *)

Lemma ip4_specs_cons (element : string) (rest : list string) :
  ip4_specs (element :: rest)
  = if is_ip4 element then Replace element "ip4:" :: ip4_specs rest else ip4_specs rest.
Proof. unfold ip4_specs. simpl. destruct (is_ip4 element); reflexivity. Qed.

Lemma getIPsForRecord_range_static (net : Net)
    (rec : string -> string -> outcome (list string * option error))
    (domain : string) (spfSections : list string) :
  forallb is_static spfSections = true ->
  forall cidrIPs,
    getIPsForRecord_range net rec domain spfSections cidrIPs
    = Done (cidrIPs ++ ip4_specs spfSections, None) [].
Proof.
  induction spfSections as [|element rest IH]; intros St cidrIPs.
  - simpl. rewrite app_nil_r. reflexivity.
  - simpl in St. apply andb_true_iff in St as [Se Sr].
    unfold is_static in Se. apply andb_true_iff in Se as [Si Sa].
    apply negb_true_iff in Si, Sa.
    cbn [getIPsForRecord_range]. rewrite ip4_specs_cons. unfold is_ip4.
    destruct (HasPrefix "v=spf1" element); [apply IH, Sr|].
    destruct (HasPrefix element "ip4"); simpl negb; cbn [andb].
    + rewrite (IH Sr), <- List.app_assoc. reflexivity.
    + rewrite Si, Sa. apply IH, Sr.
Qed.

(** X11. A policy in which no token starts with [include] or reads [a] or
    [mx] is resolved without any DNS query and without recursion: the
    result is the list of its [ip4] specs, in order, whatever the domain;
    every other token ([all] with any qualifier, [ip6:...], [redirect=...],
    unknown words, empty tokens) is passed over. *)
Theorem static_policy_no_lookup (net : Net) (fuel : nat) (domain record : string) :
  forallb is_static (Split record " ") = true ->
  getIPsForRecord net (S fuel) domain record
  = Done (ip4_specs (Split record " "), None) [].
Proof.
  intros St. cbn [getIPsForRecord]. cbv zeta.
  rewrite (getIPsForRecord_range_static _ _ _ _ St). reflexivity.
Qed.

Lemma static_policy_no_lookup_witness :
  getIPsForRecord policy_net 1 "example.org"
    "v=spf1 ip4:192.0.2.0/24 ip6:2001:db8::/32  ip4:198.51.100.7 redirect=x.example ~all"
  = Done (["192.0.2.0/24"; "198.51.100.7"], None) [].
Proof.
  apply (static_policy_no_lookup policy_net 0 "example.org"
           "v=spf1 ip4:192.0.2.0/24 ip6:2001:db8::/32  ip4:198.51.100.7 redirect=x.example ~all").
  reflexivity.
Defined.

(** ** The accumulated list *)

Lemma onto_tell (acc : list string) (log : list query) m :
  onto acc (tell log m) = tell log (onto acc m).
Proof. destruct m as [[l [e|]] lg| |]; reflexivity. Qed.

Lemma onto_onto (acc acc' : list string) m :
  onto acc (onto acc' m) = onto (acc ++ acc') m.
Proof.
  destruct m as [[l [e|]] lg| |]; simpl; try reflexivity.
  rewrite List.app_assoc. reflexivity.
Qed.

Lemma getIPsForRecord_range_onto (net : Net)
    (rec : string -> string -> outcome (list string * option error))
    (domain : string) (spfSections : list string) :
  forall cidrIPs,
    getIPsForRecord_range net rec domain spfSections cidrIPs
    = onto cidrIPs (getIPsForRecord_range net rec domain spfSections []).
Proof.
  induction spfSections as [|element rest IH]; intros cidrIPs.
  - simpl. rewrite app_nil_r. reflexivity.
  - cbn [getIPsForRecord_range].
    destruct (HasPrefix "v=spf1" element); [apply IH|].
    destruct (HasPrefix element "ip4").
    { rewrite (IH (cidrIPs ++ _)), (IH ([] ++ _)), onto_onto. reflexivity. }
    destruct (HasPrefix element "include").
    + unfold net_LookupTXT. rewrite !bind_Done, onto_tell. f_equal.
      destruct (LookupTXT net _) as [txts [e|]]; [reflexivity|].
      destruct (findSPFRecord txts) as [rs [e|]]; [reflexivity|].
      destruct rs as [|spfRecord rs]; [reflexivity|].
      rewrite index_0_cons, !bind_Done, !tell_nil.
      destruct (rec _ spfRecord) as [[recursiveList err] lg| |]; try reflexivity.
      rewrite !bind_Done, onto_tell. f_equal.
      rewrite (IH (cidrIPs ++ _)), (IH ([] ++ _)), onto_onto. reflexivity.
    + destruct (_ || _); [|apply IH].
      destruct (parseOtherRecord net domain element) as [[otherRecord err] lg| |];
        try reflexivity.
      rewrite !bind_Done, onto_tell. f_equal.
      destruct err as [e|]; [reflexivity|].
      rewrite (IH (cidrIPs ++ _)), (IH ([] ++ _)), onto_onto. reflexivity.
Qed.

Lemma getIPsForRecord_range_error_nil (net : Net)
    (rec : string -> string -> outcome (list string * option error))
    (domain : string) (spfSections : list string) :
  forall cidrIPs l e log,
    getIPsForRecord_range net rec domain spfSections cidrIPs = Done (l, Some e) log ->
    l = [].
Proof.
  induction spfSections as [|element rest IH]; intros cidrIPs l e log H.
  - discriminate H.
  - cbn [getIPsForRecord_range] in H.
    destruct (HasPrefix "v=spf1" element); [eauto|].
    destruct (HasPrefix element "ip4"); [eauto|].
    destruct (HasPrefix element "include").
    + unfold net_LookupTXT in H. rewrite bind_Done in H.
      apply tell_Done_inv in H as (l' & H & _).
      destruct (LookupTXT net _) as [txts [e0|]]; [inversion H; reflexivity|].
      destruct (findSPFRecord txts) as [rs [e0|]]; [inversion H; reflexivity|].
      destruct rs as [|spfRecord rs]; [discriminate H|].
      rewrite index_0_cons, bind_Done, tell_nil in H.
      destruct (rec _ spfRecord) as [[recursiveList err] lg| |]; try discriminate H.
      rewrite bind_Done in H. apply tell_Done_inv in H as (l'' & H & _). eauto.
    + destruct (_ || _); [|eauto].
      destruct (parseOtherRecord net domain element) as [[otherRecord err] lg| |];
        try discriminate H.
      rewrite bind_Done in H. apply tell_Done_inv in H as (l' & H & _).
      destruct err as [e0|]; [inversion H; reflexivity|eauto].
Qed.

(** X12. The token loop only ever appends to the list it was given: a run
    that succeeds from the empty list with [l] succeeds from [acc] with
    [acc ++ l] and the same queries.  A run that ends in an error ends in
    the same error from any starting list, and returns the empty list with
    it: an error is never accompanied by part of the specs. *)
Theorem getIPsForRecord_range_accumulates (net : Net)
    (rec : string -> string -> outcome (list string * option error))
    (domain : string) (spfSections acc : list string) :
  (forall l log,
      getIPsForRecord_range net rec domain spfSections [] = Done (l, None) log ->
      getIPsForRecord_range net rec domain spfSections acc = Done (acc ++ l, None) log)
  /\ (forall l e log,
      getIPsForRecord_range net rec domain spfSections [] = Done (l, Some e) log ->
      l = []
      /\ getIPsForRecord_range net rec domain spfSections acc = Done ([], Some e) log).
Proof.
  split.
  - intros l log H. rewrite getIPsForRecord_range_onto, H. reflexivity.
  - intros l e log H.
    assert (l = []) as -> by (eapply getIPsForRecord_range_error_nil, H).
    split; [reflexivity|].
    rewrite getIPsForRecord_range_onto, H. reflexivity.
Qed.

Lemma getIPsForRecord_range_accumulates_witness :
  getIPsForRecord_range mx_net (getIPsForRecord mx_net 0) "example.org"
    ["mx"; "ip4:192.0.2.0/24"] ["198.51.100.7"]
  = Done (["198.51.100.7"] ++ ["10.0.0.1"; "10.0.0.2"; "192.0.2.0/24"], None)
         [QueryMX "example.org"; QueryIP "mx1.example.org"; QueryIP "mx2.example.org"]
  /\ ([] = @nil string
      /\ getIPsForRecord_range mx_net (getIPsForRecord mx_net 0) "example.net"
           ["ip4:192.0.2.0/24"; "mx"] ["198.51.100.7"]
         = Done ([], Some (DNSError "no such host"))
                [QueryMX "example.net"; QueryIP "mx1.example.org";
                 QueryIP "gone.example.org"]).
Proof.
  split.
  - apply (proj1 (getIPsForRecord_range_accumulates mx_net (getIPsForRecord mx_net 0)
                    "example.org" ["mx"; "ip4:192.0.2.0/24"] ["198.51.100.7"])).
    reflexivity.
  - apply (proj2 (getIPsForRecord_range_accumulates mx_net (getIPsForRecord mx_net 0)
                    "example.net" ["ip4:192.0.2.0/24"; "mx"] ["198.51.100.7"])).
    reflexivity.
Defined.

(** ** [processEmail] *)

Lemma count_byte_one_split (c : ascii) (s : string) :
  count_byte c s = 1 ->
  exists u d, s = u +:+ String c d /\ count_byte c u = 0 /\ count_byte c d = 0.
Proof.
  induction s as [|a s IH]; simpl; [discriminate|].
  destruct (Ascii.eqb_spec a c) as [->|N].
  - intros H. exists EmptyString, s. repeat split. simpl in H. lia.
  - simpl. intros H. destruct (IH H) as (u & d & -> & U & D).
    exists (String a u), d. repeat split; [|exact D].
    simpl. destruct (Ascii.eqb_spec a c); [congruence|exact U].
Qed.

(** X13. [processEmail] succeeds exactly on the strings with one [@] and
    returns all that follows it: [user@dom] gives [dom], also when [user]
    or [dom] is empty, and every successful result comes from such a
    string.  With no [@] or several it returns the empty string and an
    error. *)
Theorem processEmail_one_at (email : string) :
  (forall user dom,
      email = user +:+ String "@" dom ->
      count_byte "@" user = 0 -> count_byte "@" dom = 0 ->
      processEmail email = (dom, None))
  /\ (forall dom,
      processEmail email = (dom, None) ->
      exists user,
        email = user +:+ String "@" dom
        /\ count_byte "@" user = 0 /\ count_byte "@" dom = 0)
  /\ (count_byte "@" email <> 1 ->
      processEmail email
      = (EmptyString,
         Some (errors_New "Email address either has not enough or too many @ symbols"))).
Proof.
  assert (One : forall user dom,
             email = user +:+ String "@" dom ->
             count_byte "@" user = 0 -> count_byte "@" dom = 0 ->
             processEmail email = (dom, None)).
  { intros user dom -> U D. unfold processEmail.
    rewrite (Split_app _ _ _ U), (Split_single _ _ D). reflexivity. }
  assert (Not : count_byte "@" email <> 1 ->
                processEmail email
                = (EmptyString,
                   Some (errors_New
                           "Email address either has not enough or too many @ symbols"))).
  { intros N. unfold processEmail. rewrite Split_length.
    destruct (count_byte "@" email) as [|[|n]]; [reflexivity|congruence|reflexivity]. }
  split; [exact One|]. split; [|exact Not].
  intros dom H.
  destruct (Nat.eq_dec (count_byte "@" email) 1) as [E|N].
  - destruct (count_byte_one_split _ _ E) as (u & d & -> & U & D).
    rewrite (One u d eq_refl U D) in H. injection H as <-. eauto.
  - rewrite (Not N) in H. discriminate H.
Qed.

Lemma processEmail_one_at_witness :
  processEmail "@" = (EmptyString, None)
  /\ processEmail "cathal@garvey.me" = ("garvey.me", None)
  /\ processEmail "a@b@c"
     = (EmptyString,
        Some (errors_New "Email address either has not enough or too many @ symbols")).
Proof.
  split; [|split].
  - apply (proj1 (processEmail_one_at "@") EmptyString EmptyString); reflexivity.
  - apply (proj1 (processEmail_one_at "cathal@garvey.me") "cathal" "garvey.me");
      reflexivity.
  - apply (proj2 (proj2 (processEmail_one_at "a@b@c"))). vm_compute. lia.
Defined.

(** ** [Validate] on a policy that needs no DNS *)

(** X14. For a domain whose SPF record has no [include], [a] or [mx]
    token, [Validate] is the membership test of the candidate in the [ip4]
    specs of the record.  When the record is cached the call issues no DNS
    query at all; when it is not, the call issues the one TXT query for the
    domain and caches the record. *)
Theorem Validate_static_policy (net : Net) (fuel : nat) (sc : spfChecker)
    (ip domain record : string) :
  forallb is_static (Split record " ") = true ->
  (Cache sc !! domain = Some [record] ->
   Validate net (S fuel) sc ip domain
   = Done (Validate_range net ip (ip4_specs (Split record " ")), sc) [])
  /\ (forall txts,
      Cache sc !! domain = None ->
      LookupTXT net domain = (txts, None) ->
      List.filter (fun r => HasPrefix r "v=spf1") txts = [record] ->
      Validate net (S fuel) sc ip domain
      = Done (Validate_range net ip (ip4_specs (Split record " ")),
              {| Cache := <[domain := [record]]> (Cache sc) |})
             [QueryTXT domain]).
Proof.
  intros St.
  assert (G : getIPsForRecord net (S fuel) domain record
              = Done (ip4_specs (Split record " "), None) []).
  { cbn [getIPsForRecord]. cbv zeta.
    rewrite (getIPsForRecord_range_static _ _ _ _ St). reflexivity. }
  split.
  - intros C.
    apply (Validate_resolved net (S fuel) sc sc ip domain record [] _ [] []);
      [apply LookupSPFRecords_hit, C|exact G].
  - intros txts C L F.
    apply (Validate_resolved net (S fuel) sc _ ip domain record [] _ [QueryTXT domain] []);
      [|exact G].
    rewrite (LookupSPFRecords_miss _ _ _ C), L.
    destruct txts as [|t txts]; [discriminate F|].
    rewrite (findSPFRecord_one _ _ F). reflexivity.
Qed.

Lemma Validate_static_policy_witness :
  Validate policy_net 1
    {| Cache := <["example.org" := ["v=spf1 ip4:93.95.224.0/24 -all"]]> ∅ |}
    "93.95.224.70" "example.org"
  = Done (Validate_range policy_net "93.95.224.70"
            (ip4_specs (Split "v=spf1 ip4:93.95.224.0/24 -all" " ")),
          {| Cache := <["example.org" := ["v=spf1 ip4:93.95.224.0/24 -all"]]> ∅ |}) [].
Proof.
  apply (proj1 (Validate_static_policy policy_net 0
                  {| Cache := <["example.org" := ["v=spf1 ip4:93.95.224.0/24 -all"]]> ∅ |}
                  "93.95.224.70" "example.org" "v=spf1 ip4:93.95.224.0/24 -all" eq_refl)).
  vm_compute. reflexivity.
Defined.
